(** * IGMPv3 host elements: message codec, checksum and the input handler

    A shallow embedding of [elements/IgmpMessage.hh] and
    [elements/IgmpInputHandler.cc].

    Machine integers are values of [Z] with their wrap-around written out:
    [uint8_t] is reduced modulo [2^8], [uint16_t] modulo [2^16] and
    [unsigned int] modulo [2^32].  Buffers are lists of bytes and live in a
    heap of blocks; code that writes through a pointer is a state
    transformer on that heap. *)

From Stdlib Require Import ZArith Lia.
From stdpp Require Import base option list gmap strings pretty.

Local Open Scope Z_scope.

(** ** Machine arithmetic *)

Module Machine.

Definition uint8 (x : Z) : Z := x mod 2 ^ 8.
Definition uint16 (x : Z) : Z := x mod 2 ^ 16.
Definition uint32 (x : Z) : Z := x mod 2 ^ 32.

(** C++ leaves [x << n] on a 32-bit operand undefined once [n >= 32].
    Compiled code shows one of two behaviours there: the shifter keeps only
    the low five bits of the count (x86, AArch64), or every bit is shifted
    out and the result is zero (ARM32, and the mathematical shift cut to
    32 bits).  Both are modelled; for counts below 32 they coincide. *)
Inductive WideShift : Type :=
  | CountMasked
  | BitsShiftedOut.

Definition shl32 (ws : WideShift) (x n : Z) : Z :=
  match ws with
  | CountMasked => uint32 (Z.shiftl x (n mod 32))
  | BitsShiftedOut => uint32 (Z.shiftl x n)
  end.

(** Byte order of the host, for multi-byte fields read in place. *)
Inductive Endian : Type :=
  | LittleEndian
  | BigEndian.

End Machine.

Import Machine.

(** ** The code/value codec of Max Resp Code and QQIC *)

Module CodeCodec.

Section Codec.

Variable ws : WideShift.

(** [igmp_code_to_value], IgmpMessage.hh lines 46-58. *)
Definition igmp_code_to_value (code : Z) : Z :=
  if code <? 128 then code
  else
    let mantissa := Z.land code 0x0F in
    let exponent := Z.land code 0x70 in
    shl32 ws (Z.lor mantissa 0x10) (exponent + 3).

(** The loop of [igmp_value_to_code], lines 88-95; [n] bounds the number of
    iterations still allowed and [code] is the [uint8_t] loop variable. *)
Fixpoint value_to_code_loop (n : nat) (code value : Z) : Z :=
  match n with
  | O => 255
  | S n' =>
      if code <? 255 then
        let code_val := igmp_code_to_value code in
        if code_val =? value then code
        else if code_val >? value then uint8 (code - 1)
        else value_to_code_loop n' (uint8 (code + 1)) value
      else 255
  end.

(** [igmp_value_to_code], lines 62-99.  The loop variable runs from 128 and
    the loop is left when it reaches 255, so 127 iterations are all the loop
    can make (see [value_to_code_loop_fuel]). *)
Definition igmp_value_to_code (value : Z) : Z :=
  if value <? 128 then uint8 value
  else value_to_code_loop 127 128 value.

End Codec.

(** The decoding that the comment above [igmp_code_to_value] documents and
    that the specification repeats: the exponent is the three-bit field in
    bits 4-6 of the code. *)
Definition documented_code_to_value (code : Z) : Z :=
  if code <? 128 then code
  else
    let mantissa := Z.land code 0x0F in
    let exponent := Z.land (Z.shiftr code 4) 0x7 in
    Z.shiftl (Z.lor mantissa 0x10) (exponent + 3).

End CodeCodec.

Import CodeCodec.

(** ** Buffers behind pointers *)

Module Memory.

(** A pointer names a block of bytes; every pointer of the modelled code
    points at the first byte of its block. *)
Abbreviation ptr := positive (only parsing).
Abbreviation heap := (gmap positive (list Z)) (only parsing).

(** A computation on the heap.  [None] stands for an access the C++
    standard leaves undefined: a read or write outside the block, or the use
    of a pointer that is not allocated. *)
Definition M (A : Type) : Type := heap -> option (A * heap).

Definition ret {A : Type} (a : A) : M A := fun h => Some (a, h).

Definition bind {A B : Type} (m : M A) (k : A -> M B) : M B :=
  fun h => match m h with
           | Some (a, h') => k a h'
           | None => None
           end.

Definition undefined {A : Type} : M A := fun _ => None.

Notation "'do' x <- m ; k" := (bind m (fun x => k))
  (at level 10, x name, m at level 100, k at level 200,
   format "'[v' 'do'  x  <-  m ; '/' k ']'").

(** The two bytes of a 16-bit object at increasing addresses. *)
Definition halfword_bytes (e : Endian) (v : Z) : Z * Z :=
  match e with
  | LittleEndian => (v mod 256, v / 256 mod 256)
  | BigEndian => (v / 256 mod 256, v mod 256)
  end.

(** The 16-bit object the host reads from two bytes at increasing
    addresses. *)
Definition halfword (e : Endian) (b0 b1 : Z) : Z :=
  match e with
  | LittleEndian => b0 + 256 * b1
  | BigEndian => 256 * b0 + b1
  end.

(** The value two bytes at increasing addresses have in network byte
    order. *)
Definition network16 (b0 b1 : Z) : Z := 256 * b0 + b1.

Definition read_bytes (p : ptr) (n : nat) : M (list Z) :=
  fun h => match h !! p with
           | Some b => if decide (n <= length b)%nat then Some (take n b, h)
                       else None
           | None => None
           end.

Definition store16 (e : Endian) (p : ptr) (off : nat) (v : Z) : M unit :=
  fun h => match h !! p with
           | Some b =>
               if decide (off + 2 <= length b)%nat then
                 let '(b0, b1) := halfword_bytes e (uint16 v) in
                 Some (tt, <[p := <[S off := b1]> (<[off := b0]> b)]> h)
               else None
           | None => None
           end.

Definition load16 (e : Endian) (p : ptr) (off : nat) : M Z :=
  fun h => match h !! p with
           | Some b =>
               match b !! off, b !! S off with
               | Some b0, Some b1 => Some (halfword e b0 b1, h)
               | _, _ => None
               end
           | None => None
           end.

(** [new unsigned char[size]]: a block no live pointer names.  Its bytes
    are indeterminate; the one caller overwrites all of them before reading
    any, and zeros stand in for them. *)
Definition new_array (size : nat) : M ptr :=
  fun h => let p := fresh (dom h) in Some (p, <[p := replicate size 0]> h).

Definition memcpy (dst src : ptr) (n : nat) : M unit :=
  fun h => match h !! dst, h !! src with
           | Some d, Some s =>
               if decide (n <= length d)%nat then
                 if decide (n <= length s)%nat then
                   Some (tt, <[dst := take n s ++ drop n d]> h)
                 else None
               else None
           | _, _ => None
           end.

Definition delete_array (p : ptr) : M unit :=
  fun h => match h !! p with
           | Some _ => Some (tt, delete p h)
           | None => None
           end.

(** [(int)size]: the cast is the identity on every length that fits [int];
    longer buffers are outside the model. *)
Definition int_of_size (size : nat) : M nat :=
  if Z.of_nat size <? 2 ^ 31 then ret size else undefined.

End Memory.

Import Memory.

(** ** The IGMP checksum *)

Module Checksum.

Section Checksum.

Variable e : Endian.

(** [click_in_cksum(data, len)] belongs to the Click library.  It reads the
    [len] bytes at [data] and nothing else, so it is a function of those
    bytes. *)
Variable click_in_cksum : list Z -> Z.

(** Offset of the [checksum] field in [IgmpMembershipQueryHeader] (packed:
    [type] and [max_resp_code] take one byte each). *)
Definition checksum_offset : nat := 2.

(** [update_igmp_checksum], IgmpMessage.hh lines 308-314. *)
Definition update_igmp_checksum (data : ptr) (size : nat) : M Z :=
  do _ <- store16 e data checksum_offset 0;
  do len <- int_of_size size;
  do bytes <- read_bytes data len;
  do _ <- store16 e data checksum_offset (click_in_cksum bytes);
  load16 e data checksum_offset.

(** [get_igmp_checksum], lines 317-321. *)
Definition get_igmp_checksum (data : ptr) : M Z :=
  load16 e data checksum_offset.

(** [compute_igmp_checksum], lines 324-331. *)
Definition compute_igmp_checksum (data : ptr) (size : nat) : M Z :=
  do data_copy <- new_array size;
  do _ <- memcpy data_copy data size;
  do result <- update_igmp_checksum data_copy size;
  do _ <- delete_array data_copy;
  ret result.

End Checksum.

(** Modelled from the spec: [click_in_cksum] is not part of the sources.
    The specification describes it as the 16-bit one's-complement sum over
    the whole message; the words are read the way the host reads them, so
    that storing the result in place puts the checksum on the wire in
    network order. *)
Fixpoint sum_words (e : Endian) (bytes : list Z) : Z :=
  match bytes with
  | b0 :: b1 :: rest => halfword e b0 b1 + sum_words e rest
  | [b0] => halfword e b0 0
  | [] => 0
  end.

Definition fold_carries (s : Z) : Z :=
  let s1 := s mod 65536 + s / 65536 in
  s1 mod 65536 + s1 / 65536.

Definition in_cksum (e : Endian) (bytes : list Z) : Z :=
  Z.lxor (fold_carries (sum_words e bytes)) 0xFFFF.

End Checksum.

Import Checksum.

(** ** Group record headers *)

Module GroupRecord.

(** [enum class IgmpV3GroupRecordType : uint8_t], lines 224-255. *)
Inductive IgmpV3GroupRecordType : Type :=
  | ModeIsInclude
  | ModeIsExclude
  | ChangeToIncludeMode
  | ChangeToExcludeMode.

Definition record_type_value (t : IgmpV3GroupRecordType) : Z :=
  match t with
  | ModeIsInclude => 1
  | ModeIsExclude => 2
  | ChangeToIncludeMode => 3
  | ChangeToExcludeMode => 4
  end.

(** [struct IgmpV3GroupRecordHeader], lines 258-286.  The multi-byte fields
    hold what the host reads from the bytes of the record, which are in
    network order on the wire. *)
Record IgmpV3GroupRecordHeader : Type := {
  type : IgmpV3GroupRecordType;
  aux_data_length : Z;
  number_of_sources : Z;
  multicast_address : Z
}.

(** [ntohs] of the C library: the identity on a big-endian host, a swap of
    the two bytes on a little-endian one. *)
Definition ntohs (e : Endian) (x : Z) : Z :=
  match e with
  | BigEndian => x
  | LittleEndian => x mod 256 * 256 + x / 256 mod 256
  end.

(** [size_t] of an LP64 target. *)
Definition size_t (x : Z) : Z := x mod 2 ^ 64.

(** [get_payload_size], lines 282-285; [sizeof(uint32_t)] is 4. *)
Definition get_payload_size (e : Endian) (h : IgmpV3GroupRecordHeader) : Z :=
  size_t (4 * (ntohs e (number_of_sources h) + aux_data_length h)).

End GroupRecord.

Import GroupRecord.

(** ** The input handler element *)

Module InputHandler.

(** An IPv4 address, as a 32-bit number. *)
Abbreviation IPAddress := Z (only parsing).

(** A packet handed to an output port: the headroom it was made with and
    its data bytes. *)
Record Packet : Type := {
  headroom : nat;
  data : list Z
}.

(** [sizeof(click_ether)] and [sizeof(click_ip)]. *)
Definition sizeof_click_ether : nat := 14.
Definition sizeof_click_ip : nat := 20.

(** [IgmpV3MembershipReport] of [IgmpMessageManip.hh], as far as the
    handler uses it: a report is built empty and group records are pushed
    onto its [group_records]. *)
Record IgmpV3MembershipReport (GroupRecord : Type) : Type := {
  group_records : list GroupRecord
}.

Arguments group_records {_} _.

(** [IgmpFilter.hh] and [IgmpMessageManip.hh] are not among the sources,
    and the parser, the printer of addresses and the packet allocator
    belong to Click.  The handler is embedded over whatever they are:
    - the filter with its [listen], and the two record constructors;
    - the constructor of group records, and [get_size] and [write] of the
      report; [report_write] gives the data area of the packet after the
      report has been written into it;
    - [cp_va_kparse], which returns a status and the parsed address;
    - [Packet::make], which returns no packet when it is out of memory. *)
Class Collaborators : Type := {
  IgmpFilter : Type;
  IgmpFilterRecord : Type;
  IgmpV3GroupRecord : Type;
  PacketPool : Type;
  filter_listen : IgmpFilter -> IPAddress -> IgmpFilterRecord -> IgmpFilter;
  create_igmp_join_record : IgmpFilterRecord;
  create_igmp_leave_record : IgmpFilterRecord;
  make_group_record :
    IPAddress -> IgmpFilterRecord -> bool -> IgmpV3GroupRecord;
  report_get_size : IgmpV3MembershipReport IgmpV3GroupRecord -> nat;
  report_write :
    IgmpV3MembershipReport IgmpV3GroupRecord -> list Z -> list Z;
  cp_va_kparse : string -> Z * IPAddress;
  address_unparse : IPAddress -> string;
  Packet_make : PacketPool -> nat -> nat -> nat -> option PacketPool
}.

Section Element.

Context {collaborators : Collaborators}.

(** The member [filter] of the element, with the three parts of its
    surroundings that the handlers act on: the allocator, the packets
    pushed to output 0 (oldest first) and the lines given to
    [click_chatter]. *)
Record State : Type := {
  filter : IgmpFilter;
  pool : PacketPool;
  output0 : list Packet;
  chatter : list string
}.

Definition set_filter (f : IgmpFilter) (st : State) : State :=
  {| filter := f; pool := pool st; output0 := output0 st;
     chatter := chatter st |}.

Definition set_pool (m : PacketPool) (st : State) : State :=
  {| filter := filter st; pool := m; output0 := output0 st;
     chatter := chatter st |}.

Definition output0_push (p : Packet) (st : State) : State :=
  {| filter := filter st; pool := pool st; output0 := output0 st ++ [p];
     chatter := chatter st |}.

Definition click_chatter (line : string) (st : State) : State :=
  {| filter := filter st; pool := pool st; output0 := output0 st;
     chatter := chatter st ++ [line] |}.

(** [IgmpInputHandler::push_listen], IgmpInputHandler.cc lines 30-51. *)
Definition push_listen (multicast_address : IPAddress)
    (record : IgmpFilterRecord) (st : State) : State :=
  let st := set_filter (filter_listen (filter st) multicast_address record) st in
  let st :=
    click_chatter ("sending listen request for multicast address "
                   +:+ address_unparse multicast_address) st in
  let report :=
    {| group_records := [] ++ [make_group_record multicast_address record true] |} in
  let tailroom := 0%nat in
  let packetsize := report_get_size report in
  let headroom := (sizeof_click_ether + sizeof_click_ip)%nat in
  match Packet_make (pool st) headroom packetsize tailroom with
  | None => click_chatter "cannot make packet!" st
  | Some pool' =>
      let packet :=
        {| headroom := headroom;
           data := report_write report (replicate packetsize 0) |} in
      output0_push packet (set_pool pool' st)
  end.

(** [IgmpInputHandler::join], lines 53-63: the status returned to the
    caller and the state the call leaves. *)
Definition join (conf : string) (st : State) : Z * State :=
  let '(status, to) := cp_va_kparse conf in
  if status <? 0 then (-1, st)
  else
    let st := click_chatter ("IGMP join " +:+ address_unparse to) st in
    (0, push_listen to create_igmp_join_record st).

(** [IgmpInputHandler::leave], lines 65-75. *)
Definition leave (conf : string) (st : State) : Z * State :=
  let '(status, to) := cp_va_kparse conf in
  if status <? 0 then (-1, st)
  else
    let st := click_chatter ("IGMP leave " +:+ address_unparse to) st in
    (0, push_listen to create_igmp_leave_record st).

(** The report [push_listen] builds: one group record, made with the
    third constructor argument [true]. *)
Definition listen_report (multicast_address : IPAddress)
    (record : IgmpFilterRecord) : IgmpV3MembershipReport IgmpV3GroupRecord :=
  {| group_records := [make_group_record multicast_address record true] |}.

(** The packet [push_listen] pushes when the allocator returns one. *)
Definition report_packet (multicast_address : IPAddress)
    (record : IgmpFilterRecord) : Packet :=
  let report := listen_report multicast_address record in
  {| headroom := 34;
     data := report_write report (replicate (report_get_size report) 0) |}.

(** The outcome of the [Packet::make] call of [push_listen] in a state. *)
Definition allocation (multicast_address : IPAddress)
    (record : IgmpFilterRecord) (st : State) : option PacketPool :=
  Packet_make (pool st) 34
    (report_get_size (listen_report multicast_address record)) 0.

End Element.

End InputHandler.

Import InputHandler.

(** ** A concrete host, for running the handlers *)

Module Scenario.

(** Modelled from the spec: [IgmpFilter] ([IgmpFilter.hh] is not part of
    the sources).  Section 4.3 of the specification: a group is either not
    listened to (no entry) or has a filter mode and a source list; a join
    is EXCLUDE with no sources, a leave is INCLUDE with no sources, which
    is equivalent to the absence of the group. *)
Inductive FilterMode : Type :=
  | INCLUDE
  | EXCLUDE.

Record GroupFilterState : Type := {
  mode : FilterMode;
  sources : list Z
}.

Definition join_record : GroupFilterState :=
  {| mode := EXCLUDE; sources := [] |}.

Definition leave_record : GroupFilterState :=
  {| mode := INCLUDE; sources := [] |}.

Definition listen (f : gmap Z GroupFilterState) (group : Z)
    (r : GroupFilterState) : gmap Z GroupFilterState :=
  match mode r, sources r with
  | INCLUDE, [] => delete group f
  | _, _ => <[group := r]> f
  end.

Definition listening (f : gmap Z GroupFilterState) (group : Z) : bool :=
  bool_decide (is_Some (f !! group)).

(** Modelled from the spec: the report builder ([IgmpMessageManip.hh] is
    not part of the sources).  Sections 4.4 and 6: a report header with the
    number of group records, then each record with its sources; the
    checksum is set over the finished buffer. *)
Record GroupRecordDelta : Type := {
  delta_type : IgmpV3GroupRecordType;
  delta_group : Z;
  delta_sources : list Z
}.

Definition group_record (group : Z) (r : GroupFilterState) (change : bool)
    : GroupRecordDelta :=
  {| delta_type :=
       match mode r, change with
       | INCLUDE, true => ChangeToIncludeMode
       | EXCLUDE, true => ChangeToExcludeMode
       | INCLUDE, false => ModeIsInclude
       | EXCLUDE, false => ModeIsExclude
       end;
     delta_group := group;
     delta_sources := sources r |}.

Definition be16 (x : Z) : list Z := [x / 256 mod 256; x mod 256].

Definition be32 (x : Z) : list Z :=
  [x / 2 ^ 24 mod 256; x / 2 ^ 16 mod 256; x / 2 ^ 8 mod 256; x mod 256].

Definition record_bytes (d : GroupRecordDelta) : list Z :=
  [record_type_value (delta_type d); 0]
  ++ be16 (Z.of_nat (length (delta_sources d)))
  ++ be32 (delta_group d)
  ++ concat (map be32 (delta_sources d)).

Definition get_size (r : IgmpV3MembershipReport GroupRecordDelta) : nat :=
  (8 + length (concat (map record_bytes (group_records r))))%nat.

Definition write (r : IgmpV3MembershipReport GroupRecordDelta)
    (area : list Z) : list Z :=
  let records := group_records r in
  let unsummed :=
    [0x22; 0; 0; 0; 0; 0] ++ be16 (Z.of_nat (length records))
    ++ concat (map record_bytes records) in
  let sum := in_cksum BigEndian unsummed in
  let message := <[3%nat := sum mod 256]> (<[2%nat := sum / 256]> unsummed) in
  message ++ drop (length message) area.

(** Stand-ins for the parts of Click the handler calls: a parser of dotted
    quads, the matching printer, and an allocator that counts the packet
    buffers it has left. *)
Definition digit_value (c : Ascii.ascii) : option Z :=
  let n := Z.of_N (Ascii.N_of_ascii c) in
  if (48 <=? n) && (n <=? 57) then Some (n - 48) else None.

Fixpoint parse_octets (s : string) (cur : option Z) (acc : list Z)
    : option (list Z) :=
  match s with
  | EmptyString =>
      match cur with
      | Some v => Some (acc ++ [v])
      | None => None
      end
  | String c rest =>
      if Ascii.eqb c (Ascii.ascii_of_nat 46) then
        match cur with
        | Some v => parse_octets rest None (acc ++ [v])
        | None => None
        end
      else
        match digit_value c with
        | Some d =>
            let v := 10 * default 0 cur + d in
            if v <=? 255 then parse_octets rest (Some v) acc else None
        | None => None
        end
  end.

Definition kparse (conf : string) : Z * Z :=
  match parse_octets conf None [] with
  | Some [a; b; c; d] => (0, ((a * 256 + b) * 256 + c) * 256 + d)
  | _ => (-1, 0)
  end.

Definition unparse (a : Z) : string :=
  pretty (a / 2 ^ 24 mod 256) +:+ "." +:+ pretty (a / 2 ^ 16 mod 256)
  +:+ "." +:+ pretty (a / 2 ^ 8 mod 256) +:+ "." +:+ pretty (a mod 256).

Definition make_packet (free : nat) (headroom len tailroom : nat)
    : option nat :=
  match free with
  | O => None
  | S free' => Some free'
  end.

#[export] Instance host : Collaborators := {|
  IgmpFilter := gmap Z GroupFilterState;
  IgmpFilterRecord := GroupFilterState;
  IgmpV3GroupRecord := GroupRecordDelta;
  PacketPool := nat;
  filter_listen := listen;
  create_igmp_join_record := join_record;
  create_igmp_leave_record := leave_record;
  make_group_record := group_record;
  report_get_size := get_size;
  report_write := write;
  cp_va_kparse := kparse;
  address_unparse := unparse;
  Packet_make := make_packet
|}.

(** A host that listens to nothing, has sent nothing and has [free] packet
    buffers. *)
Definition fresh_host (free : nat) : State :=
  {| filter := (∅ : gmap Z GroupFilterState); pool := free;
     output0 := []; chatter := [] |}.

(** Group 230.1.2.3. *)
Definition group_230_1_2_3 : Z := 0xE6010203.

End Scenario.

Import Scenario.

(** ** Checking a property on every code byte *)

Definition all_codes : list Z := map Z.of_nat (seq 0 256).

Definition on_all_codes (P : Z -> bool) : bool := forallb P all_codes.

Definition both_shifts (P : WideShift -> bool) : bool :=
  P CountMasked && P BitsShiftedOut.

(** ** The checksum field of a buffer *)

(** The buffer after [header->checksum = v]. *)
Definition with_checksum (e : Endian) (v : Z) (b : list Z) : list Z :=
  <[3%nat := (halfword_bytes e (uint16 v)).2]>
    (<[2%nat := (halfword_bytes e (uint16 v)).1]> b).

(** The buffers differ at most in the two bytes of the checksum field. *)
Definition same_outside_checksum (b1 b2 : list Z) : Prop :=
  length b1 = length b2 /\
  forall i : nat, i <> 2%nat -> i <> 3%nat -> b1 !! i = b2 !! i.

(** A report for group 230.1.2.3 with one record and no checksum yet, and
    the same bytes with a stale checksum in the field. *)
Definition report_230_1_2_3 : list Z :=
  [0x22; 0; 0; 0; 0; 0; 0; 1; 4; 0; 0; 0; 230; 1; 2; 3].

Definition stale_report_230_1_2_3 : list Z :=
  [0x22; 0; 0xAB; 0xCD; 0; 0; 0; 1; 4; 0; 0; 0; 230; 1; 2; 3].

Definition one_buffer : gmap positive (list Z) :=
  {[ 1%positive := report_230_1_2_3 ]}.

Definition two_buffers : gmap positive (list Z) :=
  <[ 2%positive := stale_report_230_1_2_3 ]> one_buffer.

(** ** Message types *)

Module MessageType.

(** [igmp_membership_query_type] and [igmp_v3_membership_report_type],
    IgmpMessage.hh lines 28 and 31. *)
Definition igmp_membership_query_type : Z := 0x11.
Definition igmp_v3_membership_report_type : Z := 0x22.

(** The byte at offset [off] of the block at [p]. *)
Definition load8 (p : ptr) (off : nat) : M Z :=
  fun h => match h !! p with
           | Some b =>
               match b !! off with
               | Some x => Some (x, h)
               | None => None
               end
           | None => None
           end.

(** [get_igmp_message_type], lines 289-293: [type] is the first byte of
    [IgmpV3MembershipReportHeader]. *)
Definition get_igmp_message_type (data : ptr) : M Z := load8 data 0.

(** [is_igmp_membership_query], lines 296-299. *)
Definition is_igmp_membership_query (data : ptr) : M bool :=
  do t <- get_igmp_message_type data;
  ret (t =? igmp_membership_query_type).

(** [is_igmp_v3_membership_report], lines 302-305. *)
Definition is_igmp_v3_membership_report (data : ptr) : M bool :=
  do t <- get_igmp_message_type data;
  ret (t =? igmp_v3_membership_report_type).

End MessageType.

Import MessageType.

(** ** Query headers *)

Module QueryHeader.

(** [struct IgmpMembershipQueryHeader], lines 102-186. *)
Record IgmpMembershipQueryHeader : Type := {
  type : Z;
  max_resp_code : Z;
  checksum : Z;
  group_address : Z;
  flags : Z;
  query_interval_code : Z;
  number_of_sources : Z
}.

Section Getters.

Variable ws : WideShift.

(** [get_max_resp_time], lines 176-179. *)
Definition get_max_resp_time (h : IgmpMembershipQueryHeader) : Z :=
  igmp_code_to_value ws (max_resp_code h).

(** [get_query_interval], lines 182-185. *)
Definition get_query_interval (h : IgmpMembershipQueryHeader) : Z :=
  igmp_code_to_value ws (query_interval_code h).

End Getters.

End QueryHeader.

(** ** Tables for the codec *)

(** The codes whose decoding shifts by less than 32 bits. *)
Definition low_codes : list Z := map Z.of_nat (seq 0 160).

(** What [igmp_code_to_value] gives on each range of codes. *)
Definition decodes_as_tabulated (ws : WideShift) (code : Z) : bool :=
  if code <? 128 then igmp_code_to_value ws code =? code
  else if code <? 144 then igmp_code_to_value ws code =? 8 * code - 896
  else if code <? 160 then
    igmp_code_to_value ws code =? (code - 128) * 524288
  else
    existsb (fun c => igmp_code_to_value ws code =? igmp_code_to_value ws c)
      low_codes.

(** * Properties *)

Lemma on_all_codes_spec (P : Z -> bool) :
  on_all_codes P = true -> forall code, 0 <= code <= 255 -> P code = true.
Proof.
  unfold on_all_codes, all_codes. intros Hall code Hcode.
  rewrite forallb_forall in Hall. apply Hall.
  replace code with (Z.of_nat (Z.to_nat code)) by lia.
  apply in_map, in_seq. lia.
Qed.

Lemma both_shifts_spec (P : WideShift -> bool) :
  both_shifts P = true -> forall ws, P ws = true.
Proof.
  unfold both_shifts. intros H ws.
  apply andb_prop in H as [H1 H2]. destruct ws; assumption.
Qed.

(** ** Machine arithmetic *)

(** Below 32 the two behaviours of the shift are the one C++ defines. *)
Lemma shl32_defined (ws : WideShift) (x n : Z) :
  0 <= n < 32 -> shl32 ws x n = uint32 (Z.shiftl x n).
Proof.
  intros Hn. destruct ws; cbn [shl32]; [|reflexivity].
  rewrite Z.mod_small by lia. reflexivity.
Qed.

(** ** The codec *)

Section CodecFacts.

Variable ws : WideShift.

Lemma code_to_value_small (code : Z) :
  code < 128 -> igmp_code_to_value ws code = code.
Proof.
  intros H. unfold igmp_code_to_value.
  destruct (Z.ltb_spec code 128); [reflexivity | lia].
Qed.

Lemma code_to_value_128 : igmp_code_to_value ws 128 = 128.
Proof. destruct ws; reflexivity. Qed.

Lemma code_to_value_top : igmp_code_to_value ws 255 <= igmp_code_to_value ws 159.
Proof. destruct ws; vm_compute; discriminate. Qed.

(** More iterations than the loop variable has left change nothing: the
    loop leaves through [code < 255] before the bound is reached. *)
Lemma value_to_code_loop_fuel (value : Z) (n k : nat) :
  forall code, 0 <= code <= 255 -> 255 - code <= Z.of_nat n ->
    value_to_code_loop ws (n + k) code value
    = value_to_code_loop ws n code value.
Proof.
  induction n as [|n IH]; intros code Hc Hn.
  - assert (code = 255) by lia. subst code.
    destruct k; reflexivity.
  - cbn [Nat.add value_to_code_loop].
    destruct (Z.ltb_spec code 255) as [Hlt|]; [|reflexivity].
    destruct (_ =? _); [reflexivity|].
    destruct (_ >? _); [reflexivity|].
    assert (uint8 (code + 1) = code + 1) as ->
      by (unfold uint8; apply Z.mod_small; lia).
    apply IH; lia.
Qed.

(** What the loop returns when every code below the current one decodes to
    less than [value]: a code in [128, 255] that decodes to [value], or one
    that decodes to less, or 255 when every code below 255 decodes to
    less. *)
Lemma value_to_code_loop_spec (value : Z) (n : nat) :
  128 <= value ->
  forall code, 128 <= code <= 255 -> Z.of_nat n = 255 - code ->
    (forall c, 128 <= c < code -> igmp_code_to_value ws c < value) ->
    let r := value_to_code_loop ws n code value in
    128 <= r <= 255 /\
    (igmp_code_to_value ws r = value \/
     igmp_code_to_value ws r < value \/
     (r = 255 /\ forall c, 128 <= c < 255 -> igmp_code_to_value ws c < value)).
Proof.
  intros Hv. induction n as [|n IH]; intros code Hc Hn Hbelow.
  - assert (code = 255) by lia. subst code. cbn. split; [lia|]. auto.
  - cbn [value_to_code_loop].
    destruct (Z.ltb_spec code 255) as [Hlt|]; [|lia].
    destruct (Z.eqb_spec (igmp_code_to_value ws code) value) as [Heq|Hne].
    + cbv zeta. split; [lia|]. auto.
    + destruct (Z.gtb_spec (igmp_code_to_value ws code) value) as [Hgt|Hle].
      * assert (code <> 128) by (intros ->; rewrite code_to_value_128 in Hgt; lia).
        assert (uint8 (code - 1) = code - 1) as ->
          by (unfold uint8; apply Z.mod_small; lia).
        cbv zeta. split; [lia|]. right; left. apply Hbelow. lia.
      * assert (uint8 (code + 1) = code + 1) as ->
          by (unfold uint8; apply Z.mod_small; lia).
        apply IH; [lia | lia |].
        intros c Hrange. destruct (Z.eq_dec c code) as [->|]; [lia|].
        apply Hbelow. lia.
Qed.

Lemma value_to_code_spec (value : Z) :
  128 <= value ->
  let r := igmp_value_to_code ws value in
  128 <= r <= 255 /\
  (igmp_code_to_value ws r = value \/
   igmp_code_to_value ws r < value \/
   (r = 255 /\ forall c, 128 <= c < 255 -> igmp_code_to_value ws c < value)).
Proof.
  intros Hv. unfold igmp_value_to_code.
  destruct (Z.ltb_spec value 128); [lia|].
  apply value_to_code_loop_spec; [assumption | lia | reflexivity | lia].
Qed.

End CodecFacts.

(** Decoding a code, encoding the value and decoding again gives the value
    back, for each of the 256 codes. *)
Lemma decode_encode_decode (ws : WideShift) (code : Z) :
  0 <= code <= 255 ->
  igmp_code_to_value ws (igmp_value_to_code ws (igmp_code_to_value ws code))
  = igmp_code_to_value ws code.
Proof.
  intros Hcode. apply Z.eqb_eq. revert code Hcode.
  apply (on_all_codes_spec
           (fun code =>
              igmp_code_to_value ws
                (igmp_value_to_code ws (igmp_code_to_value ws code))
              =? igmp_code_to_value ws code)).
  revert ws.
  apply (both_shifts_spec
           (fun ws =>
              on_all_codes
                (fun code =>
                   igmp_code_to_value ws
                     (igmp_value_to_code ws (igmp_code_to_value ws code))
                   =? igmp_code_to_value ws code))).
  vm_compute. reflexivity.
Qed.

(** The code decodes as documented exactly on the codes below 144: from
    144 on the exponent field is not zero, and the code shifts by sixteen
    times the field plus three instead of the field plus three. *)
Lemma code_to_value_documented_iff (ws : WideShift) (code : Z) :
  0 <= code <= 255 ->
  igmp_code_to_value ws code = documented_code_to_value code <-> code < 144.
Proof.
  intros Hcode.
  assert (Bool.eqb (igmp_code_to_value ws code
                    =? documented_code_to_value code) (code <? 144) = true)
    as Hb.
  { revert code Hcode.
    apply (on_all_codes_spec
             (fun code =>
                Bool.eqb (igmp_code_to_value ws code
                          =? documented_code_to_value code) (code <? 144))).
    revert ws.
    apply (both_shifts_spec
             (fun ws =>
                on_all_codes
                  (fun code =>
                     Bool.eqb (igmp_code_to_value ws code
                               =? documented_code_to_value code)
                              (code <? 144)))).
    vm_compute. reflexivity. }
  apply Bool.eqb_prop in Hb.
  rewrite <- Z.eqb_eq, <- Z.ltb_lt, Hb. reflexivity.
Qed.

(** C1, at the code byte 144 (binary 1 001 0000: exponent field 1, mantissa
    0).  [igmp_code_to_value] takes [code & 0x70 = 16] for the exponent and
    returns [16 << 19 = 8388608]; the documented decoding takes
    [(code >> 4) & 0x7 = 1] and gives [16 << 4 = 256]. *)
Theorem igmp_code_to_value_at_144 :
  forall ws,
    igmp_code_to_value ws 144 = 8388608 /\
    documented_code_to_value 144 = 256 /\
    Z.land 144 0x70 = 16 /\
    Z.land (Z.shiftr 144 4) 0x7 = 1.
Proof. intros []; repeat split; reflexivity. Qed.

(** C4: for every 32-bit value [v], encoding and decoding again never
    exceeds [v], and gives [v] back exactly when [v] is representable:
    below 128, or the decoded value of one of the codes 128 to 255. *)
Theorem encode_then_decode_rounds_down (ws : WideShift) (v : Z) :
  0 <= v < 2 ^ 32 ->
  igmp_code_to_value ws (igmp_value_to_code ws v) <= v /\
  (igmp_code_to_value ws (igmp_value_to_code ws v) = v <->
   (v < 128 \/ exists c, 128 <= c <= 255 /\ v = igmp_code_to_value ws c)).
Proof.
  intros Hv. destruct (Z_lt_le_dec v 128) as [Hsmall|Hbig].
  - assert (igmp_value_to_code ws v = v) as ->.
    { unfold igmp_value_to_code, uint8.
      destruct (Z.ltb_spec v 128); [apply Z.mod_small|]; lia. }
    rewrite code_to_value_small by assumption.
    split; [lia|]. split; auto.
  - destruct (value_to_code_spec ws v Hbig) as [Hr Hcases]. cbv zeta in *.
    split.
    + destruct Hcases as [Heq | [Hlt | [H255 Hall]]]; [lia | lia |].
      rewrite H255. pose proof (code_to_value_top ws).
      specialize (Hall 159). lia.
    + split.
      * intros Heq. right. exists (igmp_value_to_code ws v). auto.
      * intros [Hsmall | (c & Hc & ->)]; [lia|].
        apply decode_encode_decode. lia.
Qed.

Lemma encode_then_decode_rounds_down_witness :
  0 <= 300 < 2 ^ 32 /\
  igmp_code_to_value CountMasked (igmp_value_to_code CountMasked 300) <= 300 /\
  (igmp_code_to_value CountMasked (igmp_value_to_code CountMasked 300) = 300
   <->
   (300 < 128 \/
    exists c, 128 <= c <= 255 /\ 300 = igmp_code_to_value CountMasked c)).
Proof.
  split; [lia|].
  apply (encode_then_decode_rounds_down CountMasked 300). lia.
Defined.

(** C5: for every code byte, decoding it, encoding the value and decoding
    the result gives the decoded value of the code back. *)
Theorem decode_then_encode_preserves_value (ws : WideShift) (code : Z) :
  0 <= code <= 255 ->
  igmp_code_to_value ws (igmp_value_to_code ws (igmp_code_to_value ws code))
  = igmp_code_to_value ws code.
Proof. apply decode_encode_decode. Qed.

Lemma decode_then_encode_preserves_value_witness :
  0 <= 200 <= 255 /\
  igmp_code_to_value CountMasked
    (igmp_value_to_code CountMasked (igmp_code_to_value CountMasked 200))
  = igmp_code_to_value CountMasked 200.
Proof.
  split; [lia|].
  apply (decode_then_encode_preserves_value CountMasked 200). lia.
Defined.

(** ** The checksum *)

Lemma halfword_bytes_inv (e : Endian) (v : Z) :
  halfword e (halfword_bytes e (uint16 v)).1 (halfword_bytes e (uint16 v)).2
  = uint16 v.
Proof.
  unfold uint16.
  assert (0 <= v mod 2 ^ 16 < 2 ^ 16) as Hr by (apply Z.mod_pos_bound; lia).
  change (2 ^ 16) with 65536 in *.
  destruct e; cbn [halfword halfword_bytes fst snd];
    rewrite (Z.mod_small (v mod 65536 / 256) 256)
      by (split; [apply Z.div_pos; lia | apply Z.div_lt_upper_bound; lia]);
    pose proof (Z.div_mod (v mod 65536) 256); lia.
Qed.

(** Clearing the field writes two zero bytes, whatever the byte order. *)
Lemma with_checksum_zero (e : Endian) (b : list Z) :
  with_checksum e 0 b = <[3%nat := 0]> (<[2%nat := 0]> b).
Proof. destruct e; reflexivity. Qed.

Lemma length_with_checksum (e : Endian) (v : Z) (b : list Z) :
  length (with_checksum e v b) = length b.
Proof. unfold with_checksum. rewrite !length_insert. reflexivity. Qed.

(** Setting the field overwrites what an earlier store left there. *)
Lemma with_checksum_twice (e : Endian) (v w : Z) (b : list Z) :
  with_checksum e v (with_checksum e w b) = with_checksum e v b.
Proof.
  unfold with_checksum.
  rewrite (list_insert_insert_ne _ 2 3) by lia.
  rewrite !list_insert_insert_eq. reflexivity.
Qed.

Lemma take_with_checksum (e : Endian) (v : Z) (b : list Z) (n : nat) :
  (4 <= n)%nat ->
  take n (with_checksum e v b) = with_checksum e v (take n b).
Proof.
  intros Hn. unfold with_checksum.
  rewrite !take_insert_lt by lia. reflexivity.
Qed.

(** Buffers that differ only in the checksum field are equal once the
    field is cleared. *)
Lemma with_checksum_same_outside (e : Endian) (v : Z) (b1 b2 : list Z) :
  same_outside_checksum b1 b2 ->
  with_checksum e v b1 = with_checksum e v b2.
Proof.
  intros [Hlen Hsame]. apply list_eq. intros i. unfold with_checksum.
  destruct (decide (i = 3%nat)) as [->|H3].
  - destruct (decide (3 < length b1)%nat).
    + rewrite !list_lookup_insert_eq by (rewrite length_insert; lia).
      reflexivity.
    + rewrite !lookup_ge_None_2 by (rewrite !length_insert; lia).
      reflexivity.
  - rewrite !(list_lookup_insert_ne _ 3) by lia.
    destruct (decide (i = 2%nat)) as [->|H2].
    + destruct (decide (2 < length b1)%nat).
      * rewrite !list_lookup_insert_eq by lia. reflexivity.
      * rewrite !lookup_ge_None_2 by (rewrite !length_insert; lia).
        reflexivity.
    + rewrite !(list_lookup_insert_ne _ 2) by lia. auto.
Qed.

Section ChecksumFacts.

Variable e : Endian.
Variable click_in_cksum : list Z -> Z.

Lemma store16_checksum (h : heap) (p : ptr) (b : list Z) (v : Z) :
  h !! p = Some b -> (4 <= length b)%nat ->
  store16 e p checksum_offset v h = Some (tt, <[p := with_checksum e v b]> h).
Proof.
  intros Hp Hlen. unfold store16, checksum_offset. rewrite Hp.
  destruct (decide (2 + 2 <= length b)%nat); [|lia].
  unfold with_checksum. destruct (halfword_bytes e (uint16 v)). reflexivity.
Qed.

Lemma load16_checksum (h : heap) (p : ptr) (b : list Z) (v : Z) :
  h !! p = Some (with_checksum e v b) -> (4 <= length b)%nat ->
  load16 e p checksum_offset h = Some (uint16 v, h).
Proof.
  intros Hp Hlen. unfold load16, checksum_offset. rewrite Hp.
  unfold with_checksum.
  rewrite (list_lookup_insert_ne _ 3 2) by lia.
  rewrite !list_lookup_insert_eq by (rewrite ?length_insert; lia).
  rewrite halfword_bytes_inv. reflexivity.
Qed.

(** [update_igmp_checksum] on a buffer that holds at least the checksum
    field and [size] bytes: the sum is taken over the first [size] bytes
    with the field cleared, stored in the field and returned. *)
Lemma update_igmp_checksum_run (h : heap) (data : ptr) (b : list Z)
    (size : nat) :
  h !! data = Some b -> (4 <= length b)%nat -> (size <= length b)%nat ->
  Z.of_nat size < 2 ^ 31 ->
  update_igmp_checksum e click_in_cksum data size h
  = Some (uint16 (click_in_cksum (take size (with_checksum e 0 b))),
          <[data := with_checksum e
                      (click_in_cksum (take size (with_checksum e 0 b))) b]> h).
Proof.
  intros Hp Hlen Hsize Hint. unfold update_igmp_checksum, bind.
  rewrite (store16_checksum h data b 0 Hp Hlen).
  unfold int_of_size. destruct (Z.ltb_spec (Z.of_nat size) (2 ^ 31)); [|lia].
  unfold ret, read_bytes. rewrite lookup_insert_eq.
  destruct (decide (size <= length (with_checksum e 0 b))%nat) as [|Hn];
    [|rewrite length_with_checksum in Hn; lia].
  rewrite (store16_checksum _ data (with_checksum e 0 b) _
             (lookup_insert_eq _ _ _))
    by (rewrite length_with_checksum; lia).
  rewrite insert_insert_eq, with_checksum_twice.
  apply (load16_checksum _ data b); [apply lookup_insert_eq | assumption].
Qed.

(** [compute_igmp_checksum] returns the same sum and gives the heap back as
    it found it: the copy it works on is gone when it returns. *)
Lemma compute_igmp_checksum_run (h : heap) (data : ptr) (b : list Z)
    (size : nat) :
  h !! data = Some b -> (4 <= size <= length b)%nat ->
  Z.of_nat size < 2 ^ 31 ->
  compute_igmp_checksum e click_in_cksum data size h
  = Some (uint16 (click_in_cksum (take size (with_checksum e 0 b))), h).
Proof.
  intros Hp Hsize Hint. unfold compute_igmp_checksum, bind at 1.
  unfold new_array. set (q := fresh (dom h)).
  assert (h !! q = None) as Hq by (apply not_elem_of_dom, is_fresh).
  assert (q <> data) as Hne by (intros ->; congruence).
  unfold bind at 1, memcpy.
  rewrite lookup_insert_eq, lookup_insert_ne, Hp by assumption.
  rewrite length_replicate.
  destruct (decide (size <= size)%nat); [|lia].
  destruct (decide (size <= length b)%nat); [|lia].
  rewrite insert_insert_eq, drop_replicate, Nat.sub_diag, app_nil_r.
  unfold bind.
  rewrite (update_igmp_checksum_run _ q (take size b))
    by (rewrite ?lookup_insert_eq, ?length_take; (reflexivity || lia)).
  unfold delete_array, ret. rewrite insert_insert_eq, lookup_insert_eq.
  rewrite delete_insert_eq, (delete_id _ _ Hq).
  rewrite <- take_with_checksum by lia.
  rewrite take_take, Nat.min_id. reflexivity.
Qed.

End ChecksumFacts.

(** C6: on a buffer of at least four bytes, [update_igmp_checksum] stores
    the checksum and returns it; [compute_igmp_checksum] on the buffer it
    leaves returns the same value, which is also what the checksum field
    holds, so a freshly set checksum verifies. *)
Theorem fresh_checksum_verifies (e : Endian) (click_in_cksum : list Z -> Z)
    (h : heap) (data : ptr) (b : list Z) (size : nat) :
  h !! data = Some b -> (4 <= size <= length b)%nat ->
  Z.of_nat size < 2 ^ 31 ->
  exists stored h',
    update_igmp_checksum e click_in_cksum data size h = Some (stored, h') /\
    compute_igmp_checksum e click_in_cksum data size h' = Some (stored, h') /\
    get_igmp_checksum e data h' = Some (stored, h').
Proof.
  intros Hp Hsize Hint.
  eexists _, _. split.
  { apply (update_igmp_checksum_run e click_in_cksum h data b); (assumption || lia). }
  split.
  - rewrite (compute_igmp_checksum_run e click_in_cksum _ data _ size
               (lookup_insert_eq _ _ _))
      by (rewrite ?length_with_checksum; (assumption || lia)).
    rewrite with_checksum_twice. reflexivity.
  - apply (load16_checksum e _ data b); [apply lookup_insert_eq | lia].
Qed.

Lemma fresh_checksum_verifies_witness :
  exists stored h',
    update_igmp_checksum LittleEndian (in_cksum LittleEndian) 1%positive 16
      one_buffer = Some (stored, h') /\
    compute_igmp_checksum LittleEndian (in_cksum LittleEndian) 1%positive 16 h'
    = Some (stored, h') /\
    get_igmp_checksum LittleEndian 1%positive h' = Some (stored, h').
Proof.
  apply (fresh_checksum_verifies LittleEndian (in_cksum LittleEndian)
           one_buffer 1%positive report_230_1_2_3 16).
  - reflexivity.
  - simpl. lia.
  - lia.
Defined.

(** C10: for two buffers of the same size that differ at most in bytes 2
    and 3, [compute_igmp_checksum] returns the same value, and each call
    gives the heap back unchanged, the input buffer included. *)
Theorem compute_checksum_ignores_field (e : Endian)
    (click_in_cksum : list Z -> Z) (h : heap) (p1 p2 : ptr)
    (b1 b2 : list Z) (size : nat) :
  h !! p1 = Some b1 -> h !! p2 = Some b2 ->
  length b1 = length b2 ->
  (forall i : nat, i <> 2%nat -> i <> 3%nat -> b1 !! i = b2 !! i) ->
  (4 <= size <= length b1)%nat -> Z.of_nat size < 2 ^ 31 ->
  exists r,
    compute_igmp_checksum e click_in_cksum p1 size h = Some (r, h) /\
    compute_igmp_checksum e click_in_cksum p2 size h = Some (r, h).
Proof.
  intros Hp1 Hp2 Hlen Hsame Hsize Hint.
  eexists. split.
  - apply (compute_igmp_checksum_run e click_in_cksum h p1 b1);
      assumption.
  - rewrite (compute_igmp_checksum_run e click_in_cksum h p2 b2)
      by (assumption || lia).
    rewrite (with_checksum_same_outside e 0 b1 b2); [reflexivity|].
    split; assumption.
Qed.

Lemma compute_checksum_ignores_field_witness :
  exists r,
    compute_igmp_checksum BigEndian (in_cksum BigEndian) 1%positive 16
      two_buffers = Some (r, two_buffers) /\
    compute_igmp_checksum BigEndian (in_cksum BigEndian) 2%positive 16
      two_buffers = Some (r, two_buffers).
Proof.
  apply (compute_checksum_ignores_field BigEndian (in_cksum BigEndian)
           two_buffers 1%positive 2%positive
           report_230_1_2_3 stale_report_230_1_2_3 16).
  - reflexivity.
  - reflexivity.
  - reflexivity.
  - intros i H2 H3.
    do 4 (destruct i as [|i]; [reflexivity || congruence|]).
    reflexivity.
  - simpl. lia.
  - lia.
Defined.

(** ** Group record headers *)

Lemma ntohs_network16 (e : Endian) (b0 b1 : Z) :
  0 <= b0 < 256 -> 0 <= b1 < 256 ->
  ntohs e (halfword e b0 b1) = network16 b0 b1.
Proof.
  intros H0 H1. unfold ntohs, halfword, network16. destruct e; [|reflexivity].
  Z.to_euclidean_division_equations. lia.
Qed.

(** C9: when the two bytes of [number_of_sources] are [n_hi] and [n_lo] in
    wire order, so that the field holds N = 256 * n_hi + n_lo in network
    byte order, [get_payload_size] is 4 * (N + aux_data_length), on a host
    of either byte order; and any header with the same two fields has the
    same payload size. *)
Theorem get_payload_size_formula (e : Endian) (h : IgmpV3GroupRecordHeader)
    (n_hi n_lo : Z) :
  0 <= n_hi < 256 -> 0 <= n_lo < 256 -> 0 <= aux_data_length h < 256 ->
  number_of_sources h = halfword e n_hi n_lo ->
  get_payload_size e h = 4 * (network16 n_hi n_lo + aux_data_length h) /\
  forall h',
    number_of_sources h' = number_of_sources h ->
    aux_data_length h' = aux_data_length h ->
    get_payload_size e h' = get_payload_size e h.
Proof.
  intros Hhi Hlo Haux Hn. split.
  - unfold get_payload_size, size_t. rewrite Hn, ntohs_network16 by assumption.
    unfold network16. apply Z.mod_small. lia.
  - intros h' Hn' Haux'. unfold get_payload_size. rewrite Hn', Haux'.
    reflexivity.
Qed.

Lemma get_payload_size_formula_witness :
  let h := {| type := ChangeToExcludeMode; aux_data_length := 1;
              number_of_sources := 0x0201; multicast_address := 0x030201E6 |} in
  get_payload_size LittleEndian h = 4 * (network16 1 2 + 1) /\
  forall h',
    number_of_sources h' = number_of_sources h ->
    aux_data_length h' = aux_data_length h ->
    get_payload_size LittleEndian h' = get_payload_size LittleEndian h.
Proof.
  apply (get_payload_size_formula LittleEndian
           {| type := ChangeToExcludeMode; aux_data_length := 1;
              number_of_sources := 0x0201; multicast_address := 0x030201E6 |}
           1 2); simpl; (lia || reflexivity).
Defined.

(** ** The input handler *)

Section HandlerFacts.

Context {collaborators : Collaborators}.

(** [push_listen] when [Packet::make] returns a packet: the filter has
    listened, the packet is the last one on output 0, one line is written. *)
Lemma push_listen_sends (addr : IPAddress) (record : IgmpFilterRecord)
    (st : State) (pool' : PacketPool) :
  allocation addr record st = Some pool' ->
  push_listen addr record st
  = {| filter := filter_listen (filter st) addr record;
       pool := pool';
       output0 := output0 st ++ [report_packet addr record];
       chatter := chatter st
                  ++ ["sending listen request for multicast address "
                      +:+ address_unparse addr] |}.
Proof.
  unfold allocation, listen_report, push_listen.
  change (sizeof_click_ether + sizeof_click_ip)%nat with 34%nat.
  cbn. intros ->. reflexivity.
Qed.

(** [push_listen] when [Packet::make] returns no packet. *)
Lemma push_listen_no_memory (addr : IPAddress) (record : IgmpFilterRecord)
    (st : State) :
  allocation addr record st = None ->
  push_listen addr record st
  = {| filter := filter_listen (filter st) addr record;
       pool := pool st;
       output0 := output0 st;
       chatter := chatter st
                  ++ ["sending listen request for multicast address "
                      +:+ address_unparse addr]
                  ++ ["cannot make packet!"] |}.
Proof.
  unfold allocation, listen_report, push_listen.
  change (sizeof_click_ether + sizeof_click_ip)%nat with 34%nat.
  cbn. intros ->. unfold click_chatter. cbn.
  rewrite <- app_assoc. reflexivity.
Qed.

Lemma join_parsed (conf : string) (st : State) :
  0 <= (cp_va_kparse conf).1 ->
  join conf st
  = (0, push_listen (cp_va_kparse conf).2 create_igmp_join_record
          (click_chatter
             ("IGMP join " +:+ address_unparse (cp_va_kparse conf).2) st)).
Proof.
  intros Hok. unfold join. destruct (cp_va_kparse conf) as [status to].
  cbn in *. destruct (Z.ltb_spec status 0); [lia | reflexivity].
Qed.

Lemma leave_parsed (conf : string) (st : State) :
  0 <= (cp_va_kparse conf).1 ->
  leave conf st
  = (0, push_listen (cp_va_kparse conf).2 create_igmp_leave_record
          (click_chatter
             ("IGMP leave " +:+ address_unparse (cp_va_kparse conf).2) st)).
Proof.
  intros Hok. unfold leave. destruct (cp_va_kparse conf) as [status to].
  cbn in *. destruct (Z.ltb_spec status 0); [lia | reflexivity].
Qed.

End HandlerFacts.

(** Two calls of [join] in a row with the same address, when the address
    parses and [Packet::make] returns a packet in both calls: each call
    pushes its report to output 0, whatever the filter held before. *)
Theorem join_twice_sends_two_reports {collaborators : Collaborators}
    (conf : string) (st : State) :
  0 <= (cp_va_kparse conf).1 ->
  is_Some (allocation (cp_va_kparse conf).2 create_igmp_join_record st) ->
  is_Some (allocation (cp_va_kparse conf).2 create_igmp_join_record
             (join conf st).2) ->
  output0 (join conf st).2
  = output0 st
    ++ [report_packet (cp_va_kparse conf).2 create_igmp_join_record]
  /\
  output0 (join conf (join conf st).2).2
  = output0 (join conf st).2
    ++ [report_packet (cp_va_kparse conf).2 create_igmp_join_record].
Proof.
  intros Hok. rewrite !join_parsed by assumption.
  cbn [snd]. intros [pool1 H1].
  erewrite (push_listen_sends _ _ _ pool1) by exact H1.
  intros [pool2 H2].
  erewrite push_listen_sends by exact H2. cbn. auto.
Qed.


(** C7: when the address does not parse, [join] and [leave] return -1 and
    leave the state as it was: the filter is not touched and nothing is
    pushed to output 0. *)
Theorem unparsable_address_is_rejected {collaborators : Collaborators}
    (conf : string) (st : State) :
  (cp_va_kparse conf).1 < 0 ->
  join conf st = (-1, st) /\ leave conf st = (-1, st).
Proof.
  intros Hbad. unfold join, leave.
  destruct (cp_va_kparse conf) as [status to]. cbn in Hbad.
  destruct (Z.ltb_spec status 0); [auto | lia].
Qed.

(** C8: when [Packet::make] returns no packet, [push_listen] pushes nothing
    to output 0, writes the line "cannot make packet!" after its first
    line, and leaves the filter as [filter.listen] updated it. *)
Theorem push_listen_without_memory {collaborators : Collaborators}
    (addr : IPAddress) (record : IgmpFilterRecord) (st : State) :
  allocation addr record st = None ->
  output0 (push_listen addr record st) = output0 st /\
  chatter (push_listen addr record st)
  = chatter st
    ++ ["sending listen request for multicast address "
        +:+ address_unparse addr;
        "cannot make packet!"] /\
  filter (push_listen addr record st)
  = filter_listen (filter st) addr record.
Proof.
  intros Hnone. rewrite push_listen_no_memory by assumption.
  cbn. auto.
Qed.

(** The caller of [join] does not learn of the failed allocation: the
    handler returns 0 whenever the address parses. *)
Lemma join_parsed_returns_0 {collaborators : Collaborators}
    (conf : string) (st : State) :
  0 <= (cp_va_kparse conf).1 -> (join conf st).1 = 0.
Proof. intros Hok. rewrite join_parsed by assumption. reflexivity. Qed.

(** ** The handlers on the concrete host *)

(** C2, at the failing input: on a host with memory for two packets, the
    second [join] of 230.1.2.3 finds the group listened to and leaves the
    filter as it was, and still pushes a second report to output 0, where
    the claim, and the scenario script's "Should not do anything" before a
    repeated join, expect none. *)
Lemma second_join_sends_a_report :
  let st1 := (join "230.1.2.3" (fresh_host 2)).2 in
  let st2 := (join "230.1.2.3" st1).2 in
  listening (filter st1) group_230_1_2_3 = true /\
  filter st2 = filter st1 /\
  length (output0 st1) = 1%nat /\
  length (output0 st2) = 2%nat /\
  output0 st2 <> output0 st1.
Proof. vm_compute. repeat split; (reflexivity || discriminate). Qed.

Lemma join_twice_sends_two_reports_witness :
  output0 (join "230.1.2.3" (fresh_host 2)).2
  = output0 (fresh_host 2)
    ++ [report_packet (cp_va_kparse "230.1.2.3").2 create_igmp_join_record]
  /\
  output0 (join "230.1.2.3" (join "230.1.2.3" (fresh_host 2)).2).2
  = output0 (join "230.1.2.3" (fresh_host 2)).2
    ++ [report_packet (cp_va_kparse "230.1.2.3").2 create_igmp_join_record].
Proof.
  apply (join_twice_sends_two_reports "230.1.2.3" (fresh_host 2)).
  - vm_compute. discriminate.
  - exists 1%nat. reflexivity.
  - exists 0%nat. reflexivity.
Defined.



Lemma unparsable_address_is_rejected_witness :
  join "230.1.2" (fresh_host 1) = (-1, fresh_host 1) /\
  leave "230.1.2" (fresh_host 1) = (-1, fresh_host 1).
Proof.
  apply (unparsable_address_is_rejected "230.1.2" (fresh_host 1)).
  vm_compute. reflexivity.
Defined.

Lemma push_listen_without_memory_witness :
  output0 (push_listen group_230_1_2_3 create_igmp_join_record (fresh_host 0))
  = output0 (fresh_host 0) /\
  chatter (push_listen group_230_1_2_3 create_igmp_join_record (fresh_host 0))
  = chatter (fresh_host 0)
    ++ ["sending listen request for multicast address "
        +:+ address_unparse group_230_1_2_3;
        "cannot make packet!"] /\
  filter (push_listen group_230_1_2_3 create_igmp_join_record (fresh_host 0))
  = filter_listen (filter (fresh_host 0)) group_230_1_2_3 create_igmp_join_record.
Proof.
  apply (push_listen_without_memory group_230_1_2_3 create_igmp_join_record
           (fresh_host 0)).
  reflexivity.
Defined.

(** * Further properties *)

(** ** Decoding, range by range *)

Lemma decodes_as_tabulated_all (ws : WideShift) (code : Z) :
  0 <= code <= 255 -> decodes_as_tabulated ws code = true.
Proof.
  revert code. apply (on_all_codes_spec (decodes_as_tabulated ws)).
  revert ws.
  apply (both_shifts_spec (fun ws => on_all_codes (decodes_as_tabulated ws))).
  vm_compute. reflexivity.
Qed.

(** The decoded value of each code below 160. *)
Lemma code_to_value_tabulated (ws : WideShift) (code : Z) :
  0 <= code < 160 ->
  (code < 128 -> igmp_code_to_value ws code = code) /\
  (128 <= code < 144 -> igmp_code_to_value ws code = 8 * code - 896) /\
  (144 <= code -> igmp_code_to_value ws code = (code - 128) * 524288).
Proof.
  intros Hcode.
  pose proof (decodes_as_tabulated_all ws code ltac:(lia)) as Htab.
  unfold decodes_as_tabulated in Htab.
  destruct (Z.ltb_spec code 128); [apply Z.eqb_eq in Htab; lia|].
  destruct (Z.ltb_spec code 144); [apply Z.eqb_eq in Htab; lia|].
  destruct (Z.ltb_spec code 160); [apply Z.eqb_eq in Htab; lia|lia].
Qed.

(** A code from 160 on decodes like some code below 160. *)
Lemma code_to_value_low_code (ws : WideShift) (code : Z) :
  0 <= code <= 255 ->
  exists c, 0 <= c < 160 /\ igmp_code_to_value ws code = igmp_code_to_value ws c.
Proof.
  intros Hcode. destruct (Z_lt_le_dec code 160) as [Hlow|Hhigh].
  { exists code. split; [lia | reflexivity]. }
  pose proof (decodes_as_tabulated_all ws code Hcode) as Htab.
  unfold decodes_as_tabulated in Htab.
  destruct (Z.ltb_spec code 128); [lia|].
  destruct (Z.ltb_spec code 144); [lia|].
  destruct (Z.ltb_spec code 160); [lia|].
  apply existsb_exists in Htab as (c & Hin & Heq).
  exists c. split; [|apply Z.eqb_eq, Heq].
  unfold low_codes in Hin. apply in_map_iff in Hin as (n & <- & Hn).
  apply in_seq in Hn. lia.
Qed.

(** Below 160 a larger code decodes to a larger value. *)
Lemma code_to_value_lt (ws : WideShift) (c1 c2 : Z) :
  0 <= c1 -> c1 < c2 -> c2 < 160 ->
  igmp_code_to_value ws c1 < igmp_code_to_value ws c2.
Proof.
  intros H0 Hlt Hhi.
  destruct (code_to_value_tabulated ws c1 ltac:(lia)) as (A1 & A2 & A3).
  destruct (code_to_value_tabulated ws c2 ltac:(lia)) as (B1 & B2 & B3).
  destruct (Z_lt_le_dec c1 128); [rewrite A1 by lia|];
    [|destruct (Z_lt_le_dec c1 144); [rewrite A2 by lia | rewrite A3 by lia]];
    (destruct (Z_lt_le_dec c2 128); [rewrite B1 by lia|];
     [|destruct (Z_lt_le_dec c2 144); [rewrite B2 by lia | rewrite B3 by lia]]);
    lia.
Qed.

(** X1: on the codes whose shift is below 32 bits, [igmp_code_to_value] is
    the code itself below 128, 8 * code - 896 on the codes 128 to 143 (the
    values 128, 136, ..., 248) and (code - 128) * 2^19 on the codes 144 to
    159 (the values 2^23, ..., 31 * 2^19). *)
Theorem code_to_value_table (ws : WideShift) (code : Z) :
  0 <= code < 160 ->
  (code < 128 -> igmp_code_to_value ws code = code) /\
  (128 <= code < 144 -> igmp_code_to_value ws code = 8 * code - 896) /\
  (144 <= code -> igmp_code_to_value ws code = (code - 128) * 524288).
Proof. apply code_to_value_tabulated. Qed.

Lemma code_to_value_table_witness :
  0 <= 150 < 160 /\
  (150 < 128 -> igmp_code_to_value CountMasked 150 = 150) /\
  (128 <= 150 < 144 -> igmp_code_to_value CountMasked 150 = 8 * 150 - 896) /\
  (144 <= 150 -> igmp_code_to_value CountMasked 150 = (150 - 128) * 524288).
Proof.
  split; [lia|]. apply (code_to_value_table CountMasked 150). lia.
Defined.

(** The decoded value of a low code, in one inequality each way. *)
Lemma low_code_bounds (ws : WideShift) (code : Z) :
  0 <= code < 160 ->
  0 <= igmp_code_to_value ws code <= 16252928.
Proof.
  intros Hcode. destruct (code_to_value_tabulated ws code Hcode) as (H1 & H2 & H3).
  destruct (Z_lt_le_dec code 128); [rewrite H1; lia|].
  destruct (Z_lt_le_dec code 144); [rewrite H2; lia | rewrite H3; lia].
Qed.

(** X2: the codes from 160 on decode to nothing new: whatever a shift by 32
    bits or more gives, the decoded value of every code byte is the decoded
    value of a code below 160. *)
Theorem code_to_value_of_low_code (ws : WideShift) (code : Z) :
  0 <= code <= 255 ->
  exists c, 0 <= c < 160 /\ igmp_code_to_value ws code = igmp_code_to_value ws c.
Proof. apply code_to_value_low_code. Qed.

Lemma code_to_value_of_low_code_witness :
  exists c,
    0 <= c < 160 /\
    igmp_code_to_value BitsShiftedOut 200 = igmp_code_to_value BitsShiftedOut c.
Proof. apply (code_to_value_of_low_code BitsShiftedOut 200). lia. Defined.

(** X3: [igmp_code_to_value] is strictly increasing on the codes 0 to
    159. *)
Theorem code_to_value_increasing (ws : WideShift) (c1 c2 : Z) :
  0 <= c1 -> c1 < c2 -> c2 < 160 ->
  igmp_code_to_value ws c1 < igmp_code_to_value ws c2.
Proof. apply code_to_value_lt. Qed.

Lemma code_to_value_increasing_witness :
  igmp_code_to_value CountMasked 143 < igmp_code_to_value CountMasked 144.
Proof. apply (code_to_value_increasing CountMasked 143 144); lia. Defined.

(** X4: every decoded value lies between 0 and 31 * 2^19 = 16252928, so
    [get_max_resp_time] and [get_query_interval] of a query header never
    exceed that. *)
Theorem query_times_bounded (ws : WideShift)
    (h : QueryHeader.IgmpMembershipQueryHeader) :
  0 <= QueryHeader.max_resp_code h <= 255 ->
  0 <= QueryHeader.query_interval_code h <= 255 ->
  0 <= QueryHeader.get_max_resp_time ws h <= 16252928 /\
  0 <= QueryHeader.get_query_interval ws h <= 16252928.
Proof.
  intros Hm Hq. unfold QueryHeader.get_max_resp_time, QueryHeader.get_query_interval.
  destruct (code_to_value_low_code ws _ Hm) as (c1 & Hc1 & ->).
  destruct (code_to_value_low_code ws _ Hq) as (c2 & Hc2 & ->).
  split; apply low_code_bounds; assumption.
Qed.

Lemma query_times_bounded_witness :
  let h := {| QueryHeader.type := 0x11; QueryHeader.max_resp_code := 255;
              QueryHeader.checksum := 0; QueryHeader.group_address := 0;
              QueryHeader.flags := 0; QueryHeader.query_interval_code := 125;
              QueryHeader.number_of_sources := 0 |} in
  0 <= QueryHeader.get_max_resp_time CountMasked h <= 16252928 /\
  0 <= QueryHeader.get_query_interval CountMasked h <= 16252928.
Proof.
  apply (query_times_bounded CountMasked
           {| QueryHeader.type := 0x11; QueryHeader.max_resp_code := 255;
              QueryHeader.checksum := 0; QueryHeader.group_address := 0;
              QueryHeader.flags := 0; QueryHeader.query_interval_code := 125;
              QueryHeader.number_of_sources := 0 |}); simpl; lia.
Defined.

(** ** Encoding, range by range *)

Section EncodeFacts.

Variable ws : WideShift.

(** The loop stops at the first code that decodes to [value] or more: it
    returns that code when it decodes to [value], and the code before it
    otherwise. *)
Lemma value_to_code_loop_first (value c0 : Z) (n : nat) :
  c0 < 255 -> value <= igmp_code_to_value ws c0 ->
  forall code, 128 <= code <= c0 -> Z.of_nat n = 255 - code ->
    (forall c, code <= c < c0 -> igmp_code_to_value ws c < value) ->
    value_to_code_loop ws n code value
    = if igmp_code_to_value ws c0 =? value then c0 else c0 - 1.
Proof.
  intros Hc0 Hge. induction n as [|n IH]; intros code Hcode Hn Hbelow; [lia|].
  cbn [value_to_code_loop].
  destruct (Z.ltb_spec code 255); [|lia].
  destruct (Z.eq_dec code c0) as [->|Hne].
  - destruct (Z.eqb_spec (igmp_code_to_value ws c0) value); [reflexivity|].
    destruct (Z.gtb_spec (igmp_code_to_value ws c0) value); [|lia].
    unfold uint8. apply Z.mod_small. lia.
  - pose proof (Hbelow code ltac:(lia)) as Hlt.
    destruct (Z.eqb_spec (igmp_code_to_value ws code) value); [lia|].
    destruct (Z.gtb_spec (igmp_code_to_value ws code) value); [lia|].
    assert (uint8 (code + 1) = code + 1) as ->
      by (unfold uint8; apply Z.mod_small; lia).
    apply IH; [lia | lia |]. intros c Hc. apply Hbelow. lia.
Qed.

(** The loop runs to its end and 255 is returned when every code below 255
    decodes to less than [value]. *)
Lemma value_to_code_loop_none (value : Z) (n : nat) :
  forall code, 128 <= code <= 255 -> Z.of_nat n = 255 - code ->
    (forall c, code <= c < 255 -> igmp_code_to_value ws c < value) ->
    value_to_code_loop ws n code value = 255.
Proof.
  induction n as [|n IH]; intros code Hcode Hn Hbelow; [reflexivity|].
  cbn [value_to_code_loop].
  destruct (Z.ltb_spec code 255); [|reflexivity].
  pose proof (Hbelow code ltac:(lia)) as Hlt.
  destruct (Z.eqb_spec (igmp_code_to_value ws code) value); [lia|].
  destruct (Z.gtb_spec (igmp_code_to_value ws code) value); [lia|].
  assert (uint8 (code + 1) = code + 1) as ->
    by (unfold uint8; apply Z.mod_small; lia).
  apply IH; [lia | lia |]. intros c Hc. apply Hbelow. lia.
Qed.

Lemma value_to_code_first (value c0 : Z) :
  128 <= value -> 128 <= c0 < 255 -> value <= igmp_code_to_value ws c0 ->
  (forall c, 128 <= c < c0 -> igmp_code_to_value ws c < value) ->
  igmp_value_to_code ws value
  = if igmp_code_to_value ws c0 =? value then c0 else c0 - 1.
Proof.
  intros Hv Hc0 Hge Hbelow. unfold igmp_value_to_code.
  destruct (Z.ltb_spec value 128); [lia|].
  apply value_to_code_loop_first; (assumption || lia).
Qed.

Lemma code_to_value_128_143 (c : Z) :
  128 <= c < 144 -> igmp_code_to_value ws c = 8 * c - 896.
Proof. intros Hc. apply (code_to_value_tabulated ws c); lia. Qed.

Lemma code_to_value_144_159 (c : Z) :
  144 <= c < 160 -> igmp_code_to_value ws c = (c - 128) * 524288.
Proof. intros Hc. apply (code_to_value_tabulated ws c); lia. Qed.

Lemma value_to_code_128_248 (v : Z) :
  128 <= v <= 248 -> igmp_value_to_code ws v = 112 + v / 8.
Proof.
  intros Hv.
  rewrite (value_to_code_first v (112 + (v + 7) / 8)).
  - rewrite code_to_value_128_143
      by (Z.to_euclidean_division_equations; lia).
    destruct (Z.eqb_spec (8 * (112 + (v + 7) / 8) - 896) v);
      Z.to_euclidean_division_equations; lia.
  - lia.
  - Z.to_euclidean_division_equations; lia.
  - rewrite code_to_value_128_143
      by (Z.to_euclidean_division_equations; lia).
    Z.to_euclidean_division_equations; lia.
  - intros c Hc.
    rewrite code_to_value_128_143
      by (Z.to_euclidean_division_equations; lia).
    Z.to_euclidean_division_equations; lia.
Qed.

Lemma value_to_code_plateau (v : Z) :
  248 < v < 8388608 -> igmp_value_to_code ws v = 143.
Proof.
  intros Hv. rewrite (value_to_code_first v 144).
  - rewrite code_to_value_144_159 by lia.
    destruct (Z.eqb_spec ((144 - 128) * 524288) v); lia.
  - lia.
  - lia.
  - rewrite code_to_value_144_159 by lia. lia.
  - intros c Hc. rewrite code_to_value_128_143 by lia. lia.
Qed.

Lemma value_to_code_high (v : Z) :
  8388608 <= v <= 16252928 -> igmp_value_to_code ws v = 128 + v / 524288.
Proof.
  intros Hv.
  rewrite (value_to_code_first v (128 + (v + 524287) / 524288)).
  - rewrite code_to_value_144_159
      by (Z.to_euclidean_division_equations; lia).
    destruct (Z.eqb_spec ((128 + (v + 524287) / 524288 - 128) * 524288) v);
      Z.to_euclidean_division_equations; lia.
  - lia.
  - Z.to_euclidean_division_equations; lia.
  - rewrite code_to_value_144_159
      by (Z.to_euclidean_division_equations; lia).
    Z.to_euclidean_division_equations; lia.
  - intros c Hc.
    destruct (Z_lt_le_dec c 144).
    + rewrite code_to_value_128_143 by lia. lia.
    + rewrite code_to_value_144_159
        by (Z.to_euclidean_division_equations; lia).
      Z.to_euclidean_division_equations; lia.
Qed.

Lemma value_to_code_saturates (v : Z) :
  16252928 < v -> igmp_value_to_code ws v = 255.
Proof.
  intros Hv. unfold igmp_value_to_code.
  destruct (Z.ltb_spec v 128); [lia|].
  apply value_to_code_loop_none; [lia | reflexivity |].
  intros c Hc.
  destruct (code_to_value_low_code ws c ltac:(lia)) as (c' & Hc' & ->).
  pose proof (low_code_bounds ws c' Hc'). lia.
Qed.

End EncodeFacts.

(** The encoding on each range of values. *)
Lemma value_to_code_bounds (ws : WideShift) (v : Z) :
  0 <= v < 2 ^ 32 ->
  (v < 128 /\ igmp_value_to_code ws v = v) \/
  (128 <= v < 256 /\ igmp_value_to_code ws v = 112 + v / 8) \/
  (256 <= v < 8388608 /\ igmp_value_to_code ws v = 143) \/
  (8388608 <= v <= 16252928 /\ igmp_value_to_code ws v = 128 + v / 524288) \/
  (16252928 < v /\ igmp_value_to_code ws v = 255).
Proof.
  intros Hv.
  destruct (Z_lt_le_dec v 128).
  { left. split; [lia|]. unfold igmp_value_to_code, uint8.
    destruct (Z.ltb_spec v 128); [apply Z.mod_small|]; lia. }
  destruct (Z_lt_le_dec v 256).
  { right; left. split; [lia|]. destruct (Z_le_gt_dec v 248).
    - apply value_to_code_128_248. lia.
    - rewrite value_to_code_plateau by lia.
      Z.to_euclidean_division_equations; lia. }
  destruct (Z_lt_le_dec v 8388608).
  { right; right; left. split; [lia|]. apply value_to_code_plateau. lia. }
  destruct (Z_le_gt_dec v 16252928).
  { right; right; right; left. split; [lia|]. apply value_to_code_high. lia. }
  right; right; right; right. split; [lia|].
  apply value_to_code_saturates. lia.
Qed.

(** X5: [igmp_value_to_code] in closed form.  A value below 128 is its own
    code; from 128 to 255 the code is 112 + v / 8; every value from 256 up
    to 2^23 - 1 gets the code 143, whose value is 248; from 2^23 to
    31 * 2^19 the code is 128 + v / 2^19; above that the code is 255. *)
Theorem value_to_code_closed_form (ws : WideShift) (v : Z) :
  0 <= v < 2 ^ 32 ->
  (v < 128 -> igmp_value_to_code ws v = v) /\
  (128 <= v < 256 -> igmp_value_to_code ws v = 112 + v / 8) /\
  (256 <= v < 8388608 -> igmp_value_to_code ws v = 143) /\
  (8388608 <= v <= 16252928 -> igmp_value_to_code ws v = 128 + v / 524288) /\
  (16252928 < v -> igmp_value_to_code ws v = 255).
Proof.
  intros Hv.
  destruct (value_to_code_bounds ws v Hv)
    as [[? ?] | [[? ?] | [[? ?] | [[? ?] | [? ?]]]]];
    repeat split; intros; (assumption || lia).
Qed.

Lemma value_to_code_closed_form_witness :
  0 <= 1000 < 2 ^ 32 /\
  (1000 < 128 -> igmp_value_to_code CountMasked 1000 = 1000) /\
  (128 <= 1000 < 256 -> igmp_value_to_code CountMasked 1000 = 112 + 1000 / 8) /\
  (256 <= 1000 < 8388608 -> igmp_value_to_code CountMasked 1000 = 143) /\
  (8388608 <= 1000 <= 16252928 ->
   igmp_value_to_code CountMasked 1000 = 128 + 1000 / 524288) /\
  (16252928 < 1000 -> igmp_value_to_code CountMasked 1000 = 255).
Proof.
  split; [lia|]. apply (value_to_code_closed_form CountMasked 1000). lia.
Defined.

(** X6: [igmp_value_to_code] is monotone: a larger value never gets a
    smaller code. *)
Theorem value_to_code_monotone (ws : WideShift) (v w : Z) :
  0 <= v -> v <= w -> w < 2 ^ 32 ->
  igmp_value_to_code ws v <= igmp_value_to_code ws w.
Proof.
  intros H0 Hle Hw.
  destruct (value_to_code_bounds ws v ltac:(lia))
    as [[? ->] | [[? ->] | [[? ->] | [[? ->] | [? ->]]]]];
    destruct (value_to_code_bounds ws w ltac:(lia))
      as [[? ->] | [[? ->] | [[? ->] | [[? ->] | [? ->]]]]];
    Z.to_euclidean_division_equations; lia.
Qed.

Lemma value_to_code_monotone_witness :
  igmp_value_to_code CountMasked 130
  <= igmp_value_to_code CountMasked 9000000.
Proof. apply (value_to_code_monotone CountMasked 130 9000000); lia. Defined.

(** X7: from 128 on, [igmp_value_to_code] returns a code between 128 and
    159 or the code 255: never a code below 128, and never one of the codes
    160 to 254. *)
Theorem value_to_code_range (ws : WideShift) (v : Z) :
  128 <= v < 2 ^ 32 ->
  128 <= igmp_value_to_code ws v <= 159 \/ igmp_value_to_code ws v = 255.
Proof.
  intros Hv.
  destruct (value_to_code_bounds ws v ltac:(lia))
    as [[? ->] | [[? ->] | [[? ->] | [[? ->] | [? ->]]]]];
    try (left; Z.to_euclidean_division_equations; lia).
  right. reflexivity.
Qed.

Lemma value_to_code_range_witness :
  128 <= igmp_value_to_code BitsShiftedOut 4000000000 <= 159 \/
  igmp_value_to_code BitsShiftedOut 4000000000 = 255.
Proof. apply (value_to_code_range BitsShiftedOut 4000000000). lia. Defined.

(** X8: decoding a code and encoding the value gives the code back exactly
    for the codes below 160; each code from 160 to 255 comes back as another
    code. *)
Theorem decode_then_encode_is_identity_iff (ws : WideShift) (code : Z) :
  0 <= code <= 255 ->
  igmp_value_to_code ws (igmp_code_to_value ws code) = code <-> code < 160.
Proof.
  intros Hcode.
  assert (Bool.eqb (igmp_value_to_code ws (igmp_code_to_value ws code) =? code)
                   (code <? 160) = true) as Hb.
  { revert code Hcode.
    apply (on_all_codes_spec
             (fun code =>
                Bool.eqb
                  (igmp_value_to_code ws (igmp_code_to_value ws code) =? code)
                  (code <? 160))).
    revert ws.
    apply (both_shifts_spec
             (fun ws =>
                on_all_codes
                  (fun code =>
                     Bool.eqb
                       (igmp_value_to_code ws (igmp_code_to_value ws code)
                        =? code)
                       (code <? 160)))).
    vm_compute. reflexivity. }
  apply Bool.eqb_prop in Hb.
  rewrite <- Z.eqb_eq, <- Z.ltb_lt, Hb. reflexivity.
Qed.

Lemma decode_then_encode_is_identity_iff_witness :
  igmp_value_to_code CountMasked (igmp_code_to_value CountMasked 159) = 159
  <-> 159 < 160.
Proof.
  apply (decode_then_encode_is_identity_iff CountMasked 159). lia.
Defined.

(** No code byte decodes to a value that is at most [v] and above the
    decoded value of the code picked for [v]. *)
Lemma value_to_code_no_closer (ws : WideShift) (v c : Z) :
  0 <= v <= 16252928 -> 0 <= c <= 255 ->
  igmp_code_to_value ws c <= v ->
  igmp_code_to_value ws c
  <= igmp_code_to_value ws (igmp_value_to_code ws v).
Proof.
  intros Hv Hc.
  destruct (code_to_value_low_code ws c Hc) as (c' & Hc' & ->).
  intros Hle.
  assert (0 <= igmp_value_to_code ws v < 160 /\
          (igmp_value_to_code ws v < 159 ->
           v < igmp_code_to_value ws (igmp_value_to_code ws v + 1)))
    as [Hr Hnext].
  { destruct (value_to_code_bounds ws v ltac:(lia))
      as [[? ->] | [[? ->] | [[? ->] | [[? ->] | [? ?]]]]]; [| | | |lia].
    - split; [lia|]. intros _.
      destruct (Z.eq_dec v 127) as [->|].
      + rewrite code_to_value_128. lia.
      + rewrite code_to_value_small by lia. lia.
    - split; [Z.to_euclidean_division_equations; lia|]. intros _.
      destruct (Z_lt_le_dec v 248).
      + rewrite code_to_value_128_143
          by (Z.to_euclidean_division_equations; lia).
        Z.to_euclidean_division_equations; lia.
      + assert (112 + v / 8 + 1 = 144) as ->
          by (Z.to_euclidean_division_equations; lia).
        rewrite code_to_value_144_159 by lia. lia.
    - split; [lia|]. intros _. change (143 + 1) with 144.
      rewrite code_to_value_144_159 by lia. lia.
    - split; [Z.to_euclidean_division_equations; lia|]. intros Hlt.
      rewrite code_to_value_144_159
        by (Z.to_euclidean_division_equations; lia).
      Z.to_euclidean_division_equations; lia. }
  destruct (Z_le_gt_dec c' (igmp_value_to_code ws v)) as [Hbelow|Habove].
  - destruct (Z.eq_dec c' (igmp_value_to_code ws v)) as [->|]; [lia|].
    apply Z.lt_le_incl, code_to_value_lt; lia.
  - specialize (Hnext ltac:(lia)).
    destruct (Z.eq_dec c' (igmp_value_to_code ws v + 1)) as [->|]; [lia|].
    pose proof (code_to_value_lt ws
                  (igmp_value_to_code ws v + 1) c' ltac:(lia) ltac:(lia)
                  ltac:(lia)).
    lia.
Qed.

(** The code picked for a value decodes to at most the value. *)
Lemma value_to_code_not_above (ws : WideShift) (v : Z) :
  0 <= v ->
  igmp_code_to_value ws (igmp_value_to_code ws v) <= v.
Proof.
  intros Hv. destruct (Z_lt_le_dec v 128) as [Hsmall|Hbig].
  - assert (igmp_value_to_code ws v = v) as ->.
    { unfold igmp_value_to_code, uint8.
      destruct (Z.ltb_spec v 128); [apply Z.mod_small|]; lia. }
    rewrite code_to_value_small by assumption. lia.
  - destruct (value_to_code_spec ws v Hbig) as [Hr Hcases]. cbv zeta in *.
    destruct Hcases as [Heq | [Hlt | [H255 Hall]]]; [lia | lia |].
    rewrite H255. pose proof (code_to_value_top ws).
    specialize (Hall 159). lia.
Qed.

(** X9: for a value up to 31 * 2^19, the code [igmp_value_to_code] picks
    decodes to the greatest decodable value that does not exceed the value:
    the decoded value of the picked code is at most the value, and every
    code byte that decodes to at most the value decodes to at most the
    decoded value of the picked code. *)
Theorem value_to_code_next_lower (ws : WideShift) (v : Z) :
  0 <= v <= 16252928 ->
  igmp_code_to_value ws (igmp_value_to_code ws v) <= v /\
  forall c, 0 <= c <= 255 ->
    igmp_code_to_value ws c <= v ->
    igmp_code_to_value ws c
    <= igmp_code_to_value ws (igmp_value_to_code ws v).
Proof.
  intros Hv. split.
  - apply value_to_code_not_above. lia.
  - intros c Hc Hle. apply value_to_code_no_closer; assumption.
Qed.

Lemma value_to_code_next_lower_witness :
  igmp_code_to_value CountMasked (igmp_value_to_code CountMasked 1000) <= 1000
  /\
  forall c, 0 <= c <= 255 ->
    igmp_code_to_value CountMasked c <= 1000 ->
    igmp_code_to_value CountMasked c
    <= igmp_code_to_value CountMasked (igmp_value_to_code CountMasked 1000).
Proof. apply (value_to_code_next_lower CountMasked 1000). lia. Defined.

(** X10: 127 iterations are all the loop of [igmp_value_to_code] needs:
    with any larger bound it returns the same code. *)
Theorem value_to_code_loop_terminates (ws : WideShift) (value : Z) (k : nat) :
  value_to_code_loop ws (127 + k) 128 value
  = value_to_code_loop ws 127 128 value.
Proof. apply value_to_code_loop_fuel; lia. Qed.

(** ** The checksum field and the rest of the message *)

Lemma lookup_with_checksum_other (e : Endian) (v : Z) (b : list Z) (i : nat) :
  i <> 2%nat -> i <> 3%nat -> with_checksum e v b !! i = b !! i.
Proof.
  intros H2 H3. unfold with_checksum.
  rewrite !list_lookup_insert_ne by lia. reflexivity.
Qed.

(** X11: [update_igmp_checksum] writes bytes 2 and 3 of the buffer and
    nothing else: the buffer keeps its length and every other byte, and no
    other buffer changes. *)
Theorem update_checksum_touches_field_only (e : Endian)
    (click_in_cksum : list Z -> Z) (h : heap) (data : ptr) (b : list Z)
    (size : nat) :
  h !! data = Some b -> (4 <= length b)%nat -> (size <= length b)%nat ->
  Z.of_nat size < 2 ^ 31 ->
  exists stored h' b',
    update_igmp_checksum e click_in_cksum data size h = Some (stored, h') /\
    h' !! data = Some b' /\
    length b' = length b /\
    (forall i : nat, i <> 2%nat -> i <> 3%nat -> b' !! i = b !! i) /\
    (forall q : ptr, q <> data -> h' !! q = h !! q).
Proof.
  intros Hp Hlen Hsize Hint. eexists _, _, _. split.
  { apply (update_igmp_checksum_run e click_in_cksum h data b); assumption. }
  split; [apply lookup_insert_eq|].
  split; [apply length_with_checksum|].
  split.
  - intros i H2 H3. apply lookup_with_checksum_other; assumption.
  - intros q Hq. apply lookup_insert_ne. congruence.
Qed.

Lemma update_checksum_touches_field_only_witness :
  exists stored h' b',
    update_igmp_checksum LittleEndian (in_cksum LittleEndian) 2%positive 16
      two_buffers = Some (stored, h') /\
    h' !! 2%positive = Some b' /\
    length b' = length stale_report_230_1_2_3 /\
    (forall i : nat, i <> 2%nat -> i <> 3%nat ->
       b' !! i = stale_report_230_1_2_3 !! i) /\
    (forall q : positive, q <> 2%positive -> h' !! q = two_buffers !! q).
Proof.
  apply (update_checksum_touches_field_only LittleEndian
           (in_cksum LittleEndian) two_buffers 2%positive
           stale_report_230_1_2_3 16).
  - reflexivity.
  - simpl. lia.
  - simpl. lia.
  - lia.
Defined.

(** X12: [update_igmp_checksum] leaves the message type alone: the type
    byte, and with it the answers of [is_igmp_membership_query] and
    [is_igmp_v3_membership_report], are the same after the update as
    before. *)
Theorem update_checksum_keeps_message_type (e : Endian)
    (click_in_cksum : list Z -> Z) (h : heap) (data : ptr) (b : list Z)
    (size : nat) :
  h !! data = Some b -> (4 <= length b)%nat -> (size <= length b)%nat ->
  Z.of_nat size < 2 ^ 31 ->
  exists stored h' t,
    update_igmp_checksum e click_in_cksum data size h = Some (stored, h') /\
    get_igmp_message_type data h = Some (t, h) /\
    get_igmp_message_type data h' = Some (t, h') /\
    is_igmp_membership_query data h
    = Some (t =? igmp_membership_query_type, h) /\
    is_igmp_membership_query data h'
    = Some (t =? igmp_membership_query_type, h') /\
    is_igmp_v3_membership_report data h
    = Some (t =? igmp_v3_membership_report_type, h) /\
    is_igmp_v3_membership_report data h'
    = Some (t =? igmp_v3_membership_report_type, h').
Proof.
  intros Hp Hlen Hsize Hint.
  destruct (lookup_lt_is_Some_2 b 0 ltac:(lia)) as [t Ht].
  eexists _, _, t. split.
  { apply (update_igmp_checksum_run e click_in_cksum h data b); assumption. }
  unfold is_igmp_membership_query, is_igmp_v3_membership_report, bind,
    get_igmp_message_type, load8, ret.
  rewrite Hp, Ht, lookup_insert_eq.
  rewrite lookup_with_checksum_other, Ht by lia.
  repeat split; reflexivity.
Qed.

Lemma update_checksum_keeps_message_type_witness :
  exists stored h' t,
    update_igmp_checksum BigEndian (in_cksum BigEndian) 1%positive 16
      one_buffer = Some (stored, h') /\
    get_igmp_message_type 1%positive one_buffer = Some (t, one_buffer) /\
    get_igmp_message_type 1%positive h' = Some (t, h') /\
    is_igmp_membership_query 1%positive one_buffer
    = Some (t =? igmp_membership_query_type, one_buffer) /\
    is_igmp_membership_query 1%positive h'
    = Some (t =? igmp_membership_query_type, h') /\
    is_igmp_v3_membership_report 1%positive one_buffer
    = Some (t =? igmp_v3_membership_report_type, one_buffer) /\
    is_igmp_v3_membership_report 1%positive h'
    = Some (t =? igmp_v3_membership_report_type, h').
Proof.
  apply (update_checksum_keeps_message_type BigEndian (in_cksum BigEndian)
           one_buffer 1%positive report_230_1_2_3 16).
  - reflexivity.
  - simpl. lia.
  - simpl. lia.
  - lia.
Defined.

(** X13: [update_igmp_checksum] is idempotent: a second update of the same
    buffer returns the same checksum and leaves every buffer as the first
    update left it. *)
Theorem update_checksum_idempotent (e : Endian)
    (click_in_cksum : list Z -> Z) (h : heap) (data : ptr) (b : list Z)
    (size : nat) :
  h !! data = Some b -> (4 <= length b)%nat -> (size <= length b)%nat ->
  Z.of_nat size < 2 ^ 31 ->
  exists stored h',
    update_igmp_checksum e click_in_cksum data size h = Some (stored, h') /\
    update_igmp_checksum e click_in_cksum data size h' = Some (stored, h').
Proof.
  intros Hp Hlen Hsize Hint. eexists _, _. split.
  { apply (update_igmp_checksum_run e click_in_cksum h data b); assumption. }
  rewrite (update_igmp_checksum_run e click_in_cksum _ data _ size
             (lookup_insert_eq _ _ _))
    by (rewrite ?length_with_checksum; (assumption || lia)).
  rewrite !with_checksum_twice, insert_insert_eq. reflexivity.
Qed.

Lemma update_checksum_idempotent_witness :
  exists stored h',
    update_igmp_checksum LittleEndian (in_cksum LittleEndian) 2%positive 16
      two_buffers = Some (stored, h') /\
    update_igmp_checksum LittleEndian (in_cksum LittleEndian) 2%positive 16 h'
    = Some (stored, h').
Proof.
  apply (update_checksum_idempotent LittleEndian (in_cksum LittleEndian)
           two_buffers 2%positive stale_report_230_1_2_3 16).
  - reflexivity.
  - simpl. lia.
  - simpl. lia.
  - lia.
Defined.

(** X14: with a size below 4, [compute_igmp_checksum] has no defined
    result, whatever the buffer: the copy it allocates has [size] bytes and
    the store to [header->checksum] runs past its end. *)
Theorem compute_checksum_short_size_undefined (e : Endian)
    (click_in_cksum : list Z -> Z) (h : heap) (data : ptr) (size : nat) :
  (size < 4)%nat ->
  compute_igmp_checksum e click_in_cksum data size h = None.
Proof.
  intros Hshort. unfold compute_igmp_checksum, bind at 1.
  unfold new_array. set (q := fresh (dom h)).
  unfold bind at 1, memcpy. rewrite lookup_insert_eq, length_replicate.
  destruct (<[q:=replicate size 0]> h !! data) as [s|]; [|reflexivity].
  destruct (decide (size <= size)%nat); [|lia].
  destruct (decide (size <= length s)%nat); [|reflexivity].
  unfold bind at 1, update_igmp_checksum, bind at 1, store16.
  rewrite lookup_insert_eq.
  destruct (decide _) as [Hfits|]; [|reflexivity].
  rewrite length_app, length_take, length_drop, length_replicate in Hfits.
  unfold checksum_offset in Hfits. lia.
Qed.

Lemma compute_checksum_short_size_undefined_witness :
  compute_igmp_checksum LittleEndian (in_cksum LittleEndian) 1%positive 3
    one_buffer = None.
Proof.
  apply (compute_checksum_short_size_undefined LittleEndian
           (in_cksum LittleEndian) one_buffer 1%positive 3).
  lia.
Defined.

(** X15: verification accepts one checksum per message.  Whatever 16-bit
    value the checksum field holds, [get_igmp_checksum] returns that value
    and [compute_igmp_checksum] returns one and the same expected value,
    itself a 16-bit value; the two agree for exactly one content of the
    field, the expected value. *)
Theorem verification_accepts_one_checksum (e : Endian)
    (click_in_cksum : list Z -> Z) (h : heap) (data : ptr) (b : list Z)
    (size : nat) :
  h !! data = Some b -> (4 <= size <= length b)%nat ->
  Z.of_nat size < 2 ^ 31 ->
  exists expected,
    0 <= expected < 65536 /\
    forall v, 0 <= v < 65536 ->
      exists hv,
        store16 e data checksum_offset v h = Some (tt, hv) /\
        get_igmp_checksum e data hv = Some (v, hv) /\
        compute_igmp_checksum e click_in_cksum data size hv
        = Some (expected, hv).
Proof.
  intros Hp Hsize Hint.
  exists (uint16 (click_in_cksum (take size (with_checksum e 0 b)))).
  split; [unfold uint16; apply Z.mod_pos_bound; lia|].
  intros v Hv. eexists. split.
  { apply (store16_checksum e h data b v Hp). lia. }
  split.
  - unfold get_igmp_checksum.
    rewrite (load16_checksum e _ data b v (lookup_insert_eq _ _ _))
      by lia.
    unfold uint16. rewrite Z.mod_small by lia. reflexivity.
  - rewrite (compute_igmp_checksum_run e click_in_cksum _ data _ size
               (lookup_insert_eq _ _ _))
      by (rewrite ?length_with_checksum; (assumption || lia)).
    rewrite with_checksum_twice. reflexivity.
Qed.

Lemma verification_accepts_one_checksum_witness :
  exists expected,
    0 <= expected < 65536 /\
    forall v, 0 <= v < 65536 ->
      exists hv,
        store16 BigEndian 1%positive checksum_offset v one_buffer
        = Some (tt, hv) /\
        get_igmp_checksum BigEndian 1%positive hv = Some (v, hv) /\
        compute_igmp_checksum BigEndian (in_cksum BigEndian) 1%positive 16 hv
        = Some (expected, hv).
Proof.
  apply (verification_accepts_one_checksum BigEndian (in_cksum BigEndian)
           one_buffer 1%positive report_230_1_2_3 16).
  - reflexivity.
  - simpl. lia.
  - lia.
Defined.

(** ** The size of a group record's payload *)

(** X16: for every group record header, on a host of either byte order,
    [get_payload_size] is a multiple of 4 between 0 and 263160, so the
    multiplication never wraps [size_t]; it is 0 exactly when the record
    has no sources and no auxiliary data. *)
Theorem get_payload_size_bounds (e : Endian) (h : IgmpV3GroupRecordHeader) :
  0 <= aux_data_length h < 256 -> 0 <= number_of_sources h < 65536 ->
  0 <= get_payload_size e h <= 263160 /\
  get_payload_size e h mod 4 = 0 /\
  (get_payload_size e h = 0 <->
   number_of_sources h = 0 /\ aux_data_length h = 0).
Proof.
  intros Haux Hn. unfold get_payload_size, size_t.
  assert (0 <= ntohs e (number_of_sources h) < 65536 /\
          (ntohs e (number_of_sources h) = 0 <-> number_of_sources h = 0))
    as [Hr Hz].
  { unfold ntohs. destruct e; [|lia].
    Z.to_euclidean_division_equations; lia. }
  rewrite Z.mod_small by lia.
  split; [lia|]. split.
  - rewrite Z.mul_comm. apply Z.mod_mul. lia.
  - lia.
Qed.

Lemma get_payload_size_bounds_witness :
  let h := {| type := ModeIsInclude; aux_data_length := 255;
              number_of_sources := 0xFFFF; multicast_address := 0 |} in
  0 <= get_payload_size LittleEndian h <= 263160 /\
  get_payload_size LittleEndian h mod 4 = 0 /\
  (get_payload_size LittleEndian h = 0 <->
   number_of_sources h = 0 /\ aux_data_length h = 0).
Proof.
  apply (get_payload_size_bounds LittleEndian
           {| type := ModeIsInclude; aux_data_length := 255;
              number_of_sources := 0xFFFF; multicast_address := 0 |});
    simpl; lia.
Defined.

(** ** The handlers, whatever the allocator does *)

(** The two outcomes of [push_listen]. *)
Lemma push_listen_outcome {collaborators : Collaborators}
    (addr : IPAddress) (record : IgmpFilterRecord) (st : State) :
  filter (push_listen addr record st) = filter_listen (filter st) addr record
  /\
  (output0 (push_listen addr record st) = output0 st \/
   output0 (push_listen addr record st)
   = output0 st ++ [report_packet addr record]).
Proof.
  destruct (allocation addr record st) as [pool'|] eqn:Halloc.
  - rewrite (push_listen_sends addr record st pool' Halloc). cbn. auto.
  - rewrite (push_listen_no_memory addr record st Halloc). cbn. auto.
Qed.

(** X17: [push_listen] always hands the record to the filter, whether or
    not a packet could be made, and pushes nothing or exactly the report
    for that address and record to output 0; packets pushed earlier stay in
    place. *)
Theorem push_listen_always_listens {collaborators : Collaborators}
    (addr : IPAddress) (record : IgmpFilterRecord) (st : State) :
  filter (push_listen addr record st) = filter_listen (filter st) addr record
  /\
  (output0 (push_listen addr record st) = output0 st \/
   output0 (push_listen addr record st)
   = output0 st ++ [report_packet addr record]).
Proof. apply push_listen_outcome. Qed.

(** X18: a call of [join] or [leave] appends at most one packet to output
    0, for every argument and every state, and returns 0 or -1. *)
Theorem handlers_append_at_most_one {collaborators : Collaborators}
    (conf : string) (st : State) :
  (exists sent,
     output0 (join conf st).2 = output0 st ++ sent /\ (length sent <= 1)%nat)
  /\
  (exists sent,
     output0 (leave conf st).2 = output0 st ++ sent /\ (length sent <= 1)%nat)
  /\
  ((join conf st).1 = 0 \/ (join conf st).1 = -1) /\
  ((leave conf st).1 = 0 \/ (leave conf st).1 = -1).
Proof.
  destruct (Z_lt_le_dec (cp_va_kparse conf).1 0) as [Hbad|Hok].
  - assert (join conf st = (-1, st) /\ leave conf st = (-1, st)) as [-> ->].
    { unfold join, leave.
      destruct (cp_va_kparse conf) as [status to]. cbn in Hbad.
      destruct (Z.ltb_spec status 0); [auto | lia]. }
    cbn. repeat split; auto; exists []; rewrite app_nil_r; auto.
  - rewrite join_parsed, leave_parsed by assumption. cbn [fst snd].
    repeat split; auto.
    + destruct (push_listen_outcome (cp_va_kparse conf).2
                  create_igmp_join_record
                  (click_chatter
                     ("IGMP join "
                      +:+ address_unparse (cp_va_kparse conf).2) st))
        as [_ [-> | ->]]; cbn.
      * exists []. rewrite app_nil_r. auto.
      * eexists [_]. auto.
    + destruct (push_listen_outcome (cp_va_kparse conf).2
                  create_igmp_leave_record
                  (click_chatter
                     ("IGMP leave "
                      +:+ address_unparse (cp_va_kparse conf).2) st))
        as [_ [-> | ->]]; cbn.
      * exists []. rewrite app_nil_r. auto.
      * eexists [_]. auto.
Qed.

(** X19: the caller of [join] does not learn of a failed allocation.  When
    the address parses and [Packet::make] returns no packet, [join] returns
    0 all the same, has pushed nothing to output 0 and has updated the
    filter. *)
Theorem join_without_memory {collaborators : Collaborators}
    (conf : string) (st : State) :
  0 <= (cp_va_kparse conf).1 ->
  allocation (cp_va_kparse conf).2 create_igmp_join_record st = None ->
  (join conf st).1 = 0 /\
  output0 (join conf st).2 = output0 st /\
  filter (join conf st).2
  = filter_listen (filter st) (cp_va_kparse conf).2 create_igmp_join_record.
Proof.
  intros Hok Hnone. rewrite join_parsed by assumption. cbn [fst snd].
  rewrite push_listen_no_memory by exact Hnone. cbn. auto.
Qed.

Lemma join_without_memory_witness :
  (join "230.1.2.3" (fresh_host 0)).1 = 0 /\
  output0 (join "230.1.2.3" (fresh_host 0)).2 = output0 (fresh_host 0) /\
  filter (join "230.1.2.3" (fresh_host 0)).2
  = filter_listen (filter (fresh_host 0)) (cp_va_kparse "230.1.2.3").2
      create_igmp_join_record.
Proof.
  apply (join_without_memory "230.1.2.3" (fresh_host 0)).
  - vm_compute. discriminate.
  - reflexivity.
Defined.

(** X20: [join] followed by [leave] of the same address, when the address
    parses and [Packet::make] returns a packet both times: the filter has
    listened to the join record and then to the leave record, and output 0
    has the join report followed by the leave report. *)
Theorem join_then_leave {collaborators : Collaborators}
    (conf : string) (st : State) :
  0 <= (cp_va_kparse conf).1 ->
  is_Some (allocation (cp_va_kparse conf).2 create_igmp_join_record st) ->
  is_Some (allocation (cp_va_kparse conf).2 create_igmp_leave_record
             (join conf st).2) ->
  (leave conf (join conf st).2).1 = 0 /\
  filter (leave conf (join conf st).2).2
  = filter_listen
      (filter_listen (filter st) (cp_va_kparse conf).2
         create_igmp_join_record)
      (cp_va_kparse conf).2 create_igmp_leave_record /\
  output0 (leave conf (join conf st).2).2
  = output0 st
    ++ [report_packet (cp_va_kparse conf).2 create_igmp_join_record;
        report_packet (cp_va_kparse conf).2 create_igmp_leave_record].
Proof.
  intros Hok. rewrite join_parsed, leave_parsed by assumption.
  cbn [fst snd]. intros [pool1 H1].
  erewrite (push_listen_sends _ _ _ pool1) by exact H1.
  intros [pool2 H2].
  erewrite push_listen_sends by exact H2. cbn.
  rewrite <- app_assoc. auto.
Qed.

Lemma join_then_leave_witness :
  (leave "230.1.2.3" (join "230.1.2.3" (fresh_host 2)).2).1 = 0 /\
  filter (leave "230.1.2.3" (join "230.1.2.3" (fresh_host 2)).2).2
  = filter_listen
      (filter_listen (filter (fresh_host 2)) (cp_va_kparse "230.1.2.3").2
         create_igmp_join_record)
      (cp_va_kparse "230.1.2.3").2 create_igmp_leave_record /\
  output0 (leave "230.1.2.3" (join "230.1.2.3" (fresh_host 2)).2).2
  = output0 (fresh_host 2)
    ++ [report_packet (cp_va_kparse "230.1.2.3").2 create_igmp_join_record;
        report_packet (cp_va_kparse "230.1.2.3").2 create_igmp_leave_record].
Proof.
  apply (join_then_leave "230.1.2.3" (fresh_host 2)).
  - vm_compute. discriminate.
  - exists 1%nat. reflexivity.
  - exists 0%nat. reflexivity.
Defined.
